(** * match-rules.py: glob patterns of rule documents against changed files

    A shallow embedding of [.github/scripts/match-rules.py]:
    [glob_to_regex], [parse_frontmatter_paths], [strip_frontmatter],
    [match_rules] and [main], with the part of Python's [re] and [str]
    they call.

    A Python [str] is modelled as a [string]; one [ascii] stands for one
    character (a code point below 256).  Code that can raise returns a
    [result]; the [while] loop of [glob_to_regex] runs on fuel. *)

From Stdlib Require Import Bool Arith Lia List Ascii String Sorted.
From Stdlib Require Import NArith DecimalString.
Import ListNotations.

Local Open Scope string_scope.
Local Open Scope bool_scope.

(** ** Results of code that may raise *)

Inductive exn : Type :=
| IndexError   (* str index out of range *)
| ReError.     (* re.error, raised by re.compile *)

Inductive result (A : Type) : Type :=
| Ok (a : A)
| Raise (e : exn)
| OutOfFuel.

Arguments Ok {A} a.
Arguments Raise {A} e.
Arguments OutOfFuel {A}.

Definition bind {A B : Type} (m : result A) (f : A -> result B) : result B :=
  match m with
  | Ok a => f a
  | Raise e => Raise e
  | OutOfFuel => OutOfFuel
  end.

Notation "x <- m ;; k" := (bind m (fun x => k))
  (at level 61, m at next level, right associativity).

(** ** Characters *)

Definition LF : ascii := "010"%char.
Definition DQUOTE : ascii := "034"%char.
Definition SQUOTE : ascii := "039"%char.

Definition nl : string := String LF "".

(** ** The [str] methods the script uses *)

Module Str.

(** [s[i]]: raises IndexError out of range (the script only uses
    non-negative indices). *)
Definition index (s : string) (i : nat) : result ascii :=
  match String.get i s with
  | Some c => Ok c
  | None => Raise IndexError
  end.

(** [s[n:]] *)
Fixpoint drop (n : nat) (s : string) : string :=
  match n, s with
  | O, _ => s
  | S n', String _ s' => drop n' s'
  | S _, EmptyString => EmptyString
  end.

(** [c in chars] *)
Fixpoint mem (c : ascii) (chars : string) : bool :=
  match chars with
  | EmptyString => false
  | String d chars' => Ascii.eqb c d || mem c chars'
  end.

(** [sep.join(parts)] *)
Fixpoint join (sep : string) (parts : list string) : string :=
  match parts with
  | [] => ""
  | [p] => p
  | p :: rest => p ++ sep ++ join sep rest
  end.

(** [s.split("\n")], as the pair of the first line and the other lines;
    the result of [split] is never the empty list. *)
Fixpoint split_nl_aux (s : string) : string * list string :=
  match s with
  | EmptyString => ("", [])
  | String c s' =>
      let '(first, others) := split_nl_aux s' in
      if Ascii.eqb c LF then ("", first :: others)
      else (String c first, others)
  end.

Definition split_nl (s : string) : list string :=
  let '(first, others) := split_nl_aux s in first :: others.

(** [str.isspace] on one character below 256: the characters that
    [str.strip()] removes. *)
Definition isspace (c : ascii) : bool :=
  let n := nat_of_ascii c in
  (((9 <=? n) && (n <=? 13)) || ((28 <=? n) && (n <=? 32))
   || (n =? 133) || (n =? 160))%nat.

(** [s.lstrip(...)]: drop the longest prefix of characters satisfying [p]. *)
Fixpoint lstrip_by (p : ascii -> bool) (s : string) : string :=
  match s with
  | EmptyString => EmptyString
  | String c s' => if p c then lstrip_by p s' else s
  end.

(** [s.rstrip(...)]: drop the longest suffix of characters satisfying [p]. *)
Fixpoint rstrip_by (p : ascii -> bool) (s : string) : string :=
  match s with
  | EmptyString => EmptyString
  | String c s' =>
      match rstrip_by p s' with
      | EmptyString => if p c then EmptyString else String c EmptyString
      | t => String c t
      end
  end.

Definition strip_by (p : ascii -> bool) (s : string) : string :=
  rstrip_by p (lstrip_by p s).

(** [s.strip()] *)
Definition strip (s : string) : string := strip_by isspace s.

(** [s.strip(chars)] *)
Definition strip_chars (chars : string) (s : string) : string :=
  strip_by (fun c => mem c chars) s.

(** [s.lstrip(chars)] *)
Definition lstrip_chars (chars : string) (s : string) : string :=
  lstrip_by (fun c => mem c chars) s.

(** [s.startswith(p)] *)
Definition startswith (p s : string) : bool := String.prefix p s.

(** [s.endswith(p)] *)
Fixpoint endswith (p s : string) : bool :=
  String.eqb p s
  || match s with
     | EmptyString => false
     | String _ s' => endswith p s'
     end.

End Str.

(** ** glob_to_regex *)

(** The set [r".+^${}()|\\[]"] of characters that get a backslash. *)
Definition regex_meta : string :=
  String "." (String "+" (String "^" (String "$" (String "{" (String "}"
  (String "(" (String ")" (String "|" (String "\" (String "\"
  (String "[" (String "]" "")))))))))))).

(** One iteration of the [while] loop at index [i]: the piece appended to
    [regex] and the new value of [i]. *)
Definition glob_step (pattern : string) (n i : nat) : result (string * nat) :=
  c <- Str.index pattern i ;;
  if Ascii.eqb c "*" then
    star2 <- (if (i + 1 <? n)%nat
              then (c1 <- Str.index pattern (i + 1) ;; Ok (Ascii.eqb c1 "*"))
              else Ok false) ;;
    if (star2 : bool) then
      slash <- (if (i + 2 <? n)%nat
                then (c2 <- Str.index pattern (i + 2) ;; Ok (Ascii.eqb c2 "/"))
                else Ok false) ;;
      if (slash : bool) then Ok ("(?:.+/)?", i + 3)
      else Ok (".*", i + 2)
    else Ok ("[^/]*", i + 1)
  else if Ascii.eqb c "?" then Ok ("[^/]", i + 1)
  else if Str.mem c regex_meta then Ok (String "\" (String c ""), i + 1)
  else Ok (String c "", i + 1).

(** [while i < n: ...] *)
Fixpoint glob_loop (fuel : nat) (pattern : string) (n i : nat)
                   (regex : list string) : result (list string) :=
  match fuel with
  | O => OutOfFuel
  | S fuel' =>
      if (i <? n)%nat then
        step <- glob_step pattern n i ;;
        glob_loop fuel' pattern n (snd step) (regex ++ [fst step])
      else Ok regex
  end.

Definition glob_to_regex_fuel (fuel : nat) (pattern : string) : result string :=
  regex <- glob_loop fuel pattern (String.length pattern) 0 [] ;;
  Ok ("^" ++ Str.join "" regex ++ "$").

(** Every iteration advances [i], so [len(pattern) + 1] tests of the loop
    condition are enough. *)
Definition glob_to_regex (pattern : string) : result string :=
  glob_to_regex_fuel (S (String.length pattern)) pattern.

(** ** The part of [re] that [match_rules] calls

    [re.compile] and [Pattern.match] for the fragment of the regular
    expression syntax that [glob_to_regex] can emit: anchors, [.], a
    negated one-character set, escaped punctuation, literals, non-capturing
    groups and the greedy quantifiers.  No flag is set: [.] is every
    character but a line feed, [^] is the start of the string, and [$] is
    the end of the string or the place just before a line feed that ends
    the string. *)

Module Re.

Inductive charset : Type :=
| AnyChar                  (* .    *)
| NotLiteral (c : ascii)   (* [^c] *)
| Literal (c : ascii).     (* c, \c *)

Inductive regex : Type :=
| Empty
| AtBeginning              (* ^ *)
| AtEnd                    (* $ *)
| Char (cs : charset)
| Seq (r1 r2 : regex)
| Star (cs : charset)      (* x* *)
| Plus (cs : charset)      (* x+ *)
| Opt (r : regex)          (* x? *)
| Group (r : regex).       (* (?:...) *)

Definition seq (items : list regex) : regex := fold_right Seq Empty items.

Definition is_alnum (c : ascii) : bool :=
  let n := nat_of_ascii c in
  (((48 <=? n) && (n <=? 57)) || ((65 <=? n) && (n <=? 90))
   || ((97 <=? n) && (n <=? 122)))%nat.

(** A quantifier applies to the item before it.  Repeating an anchor or
    an already repeated item is an error of [re.compile]; [*] and [+] on
    a group are outside the fragment. *)
Definition quantify (q : ascii) (item : regex) : option regex :=
  match item with
  | Char cs =>
      if Ascii.eqb q "*" then Some (Star cs)
      else if Ascii.eqb q "+" then Some (Plus cs)
      else Some (Opt (Char cs))
  | Group r => if Ascii.eqb q "?" then Some (Opt (Group r)) else None
  | _ => None
  end.

(** The parser reads the pattern left to right.  [cur] holds the items of
    the group being read, last item first; [stack] holds the items of the
    enclosing groups.  [Raise ReError] stands for the errors of
    [re.compile] and for syntax outside the fragment alike. *)
Fixpoint parse (s : string) (stack : list (list regex)) (cur : list regex)
  : result regex :=
  match s with
  | EmptyString =>
      match stack with
      | [] => Ok (seq (rev cur))
      | _ :: _ => Raise ReError
      end
  | String c rest =>
      if Ascii.eqb c "(" then
        match rest with
        | String q (String k rest') =>
            if Ascii.eqb q "?" && Ascii.eqb k ":"
            then parse rest' (cur :: stack) []
            else Raise ReError
        | _ => Raise ReError
        end
      else if Ascii.eqb c ")" then
        match stack with
        | [] => Raise ReError
        | outer :: stack' => parse rest stack' (Group (seq (rev cur)) :: outer)
        end
      else if Ascii.eqb c "[" then
        match rest with
        | String h (String x (String k rest')) =>
            if Ascii.eqb h "^" && negb (Ascii.eqb x "\") && Ascii.eqb k "]"
            then parse rest' stack (Char (NotLiteral x) :: cur)
            else Raise ReError
        | _ => Raise ReError
        end
      else if Ascii.eqb c "\" then
        match rest with
        | String x rest' =>
            if is_alnum x then Raise ReError
            else parse rest' stack (Char (Literal x) :: cur)
        | EmptyString => Raise ReError
        end
      else if Ascii.eqb c "*" || Ascii.eqb c "+" || Ascii.eqb c "?" then
        match cur with
        | item :: cur' =>
            match quantify c item with
            | Some item' => parse rest stack (item' :: cur')
            | None => Raise ReError
            end
        | [] => Raise ReError
        end
      else if Ascii.eqb c "{" || Ascii.eqb c "|" then Raise ReError
      else if Ascii.eqb c "^" then parse rest stack (AtBeginning :: cur)
      else if Ascii.eqb c "$" then parse rest stack (AtEnd :: cur)
      else if Ascii.eqb c "." then parse rest stack (Char AnyChar :: cur)
      else parse rest stack (Char (Literal c) :: cur)
  end.

(** [re.compile(pattern)] *)
Definition compile (pattern : string) : result regex := parse pattern [] [].

Definition accepts (cs : charset) (c : ascii) : bool :=
  match cs with
  | AnyChar => negb (Ascii.eqb c LF)
  | NotLiteral x => negb (Ascii.eqb c x)
  | Literal x => Ascii.eqb c x
  end.

(** [$]: at the end, or just before a line feed that ends the string. *)
Definition at_end (s : string) : bool :=
  match s with
  | EmptyString => true
  | String c EmptyString => Ascii.eqb c LF
  | _ => false
  end.

Section Matching.
(** The rest of the match: [k bos s] with [s] the text not yet read
    and [bos] telling whether the position is still the start. *)
Variable k : bool -> string -> bool.

(** Zero or more characters of [cs], then [k]. *)
Fixpoint star (cs : charset) (bos : bool) (s : string) : bool :=
  match s with
  | EmptyString => k bos s
  | String c s' => (accepts cs c && star cs false s') || k bos s
  end.
End Matching.

(** [run r k bos s]: some match of [r] at the front of [s] can be
    followed by [k]. *)
Fixpoint run (r : regex) (k : bool -> string -> bool) (bos : bool)
             (s : string) : bool :=
  match r with
  | Empty => k bos s
  | AtBeginning => bos && k bos s
  | AtEnd => at_end s && k bos s
  | Char cs =>
      match s with
      | String c s' => accepts cs c && k false s'
      | EmptyString => false
      end
  | Seq r1 r2 => run r1 (run r2 k) bos s
  | Star cs => star k cs bos s
  | Plus cs =>
      match s with
      | String c s' => accepts cs c && star k cs false s'
      | EmptyString => false
      end
  | Opt r' => run r' k bos s || k bos s
  | Group r' => run r' k bos s
  end.

(** [compiled.match(s)] is not None: the pattern matches at position 0;
    what follows the match is not looked at. *)
Definition matches (compiled : regex) (s : string) : bool :=
  run compiled (fun _ _ => true) true s.

End Re.

(** [re.compile(glob_to_regex(pattern)).match(f)], as a truth value. *)
Definition glob_match (pattern f : string) : result bool :=
  re <- glob_to_regex pattern ;;
  compiled <- Re.compile re ;;
  Ok (Re.matches compiled f).

(** ** parse_frontmatter_paths *)

Definition DELIM : string := "---".

(** [stripped[2:].strip()], then [.strip] with the double quote as its
    argument, then [.strip] with the single quote. *)
Definition item_pattern (stripped : string) : string :=
  Str.strip_chars (String SQUOTE "")
    (Str.strip_chars (String DQUOTE "") (Str.strip (Str.drop 2 stripped))).

(** [for line in lines[1:]: ...] with the list [paths] built so far. *)
Fixpoint collect_paths (in_paths : bool) (lines : list string)
                       (paths : list string) : list string :=
  match lines with
  | [] => paths
  | line :: rest =>
      let stripped := Str.strip line in
      if stripped =? DELIM then paths
      else if stripped =? "paths:" then collect_paths true rest paths
      else if in_paths && Str.startswith "- " stripped then
        collect_paths in_paths rest (paths ++ [item_pattern stripped])
      else if in_paths && negb (stripped =? "")
              && negb (Str.startswith "- " stripped) then paths
      else collect_paths in_paths rest paths
  end.

Definition parse_frontmatter_paths (content : string) : list string :=
  match Str.split_nl content with
  | [] => []
  | first :: rest =>
      if negb (Str.strip first =? DELIM) then []
      else collect_paths false rest []
  end.

(** ** strip_frontmatter *)

(** [for i, line in enumerate(lines[1:], 1): ...]; [None] when the loop
    ends without returning. *)
Fixpoint find_close (lines : list string) (i : nat) (todo : list string)
  : option string :=
  match todo with
  | [] => None
  | line :: todo' =>
      if Str.strip line =? DELIM
      then Some (Str.lstrip_chars nl (Str.join nl (skipn (i + 1) lines)))
      else find_close lines (S i) todo'
  end.

Definition strip_frontmatter (content : string) : string :=
  let lines := Str.split_nl content in
  match lines with
  | [] => content
  | first :: rest =>
      if negb (Str.strip first =? DELIM) then content
      else match find_close lines 1 rest with
           | Some body => body
           | None => content
           end
  end.

(** ** match_rules *)

(** A rule file: [str(rule_file)] and [rule_file.read_text()]. *)
Definition rule_file : Type := (string * string)%type.

(** The rules directory: its regular files, in the order the file system
    lists them.  Every file comes with the text that [read_text] returns:
    a directory entry that cannot be read as text, and the exception it
    would raise, are outside the model. *)
Definition directory : Type := list rule_file.

(** [rules_dir.glob("*.md")] *)
Definition glob_md (rules_dir : directory) : list rule_file :=
  filter (fun f => Str.endswith ".md" (fst f)) rules_dir.

Fixpoint insert_sorted (f : rule_file) (l : list rule_file) : list rule_file :=
  match l with
  | [] => [f]
  | g :: l' => if (fst f <=? fst g) then f :: l else g :: insert_sorted f l'
  end.

(** [sorted(...)]: by path, files of equal path in their given order. *)
Definition sorted (l : list rule_file) : list rule_file :=
  fold_right insert_sorted [] l.

(** [for f in changed_files: if compiled.match(f): ...; break] *)
Fixpoint any_match (compiled : Re.regex) (changed_files : list string) : bool :=
  match changed_files with
  | [] => false
  | f :: rest => if Re.matches compiled f then true else any_match compiled rest
  end.

(** [for pattern in paths: ...]: the final value of [rule_matched]. *)
Fixpoint rule_matched (paths : list string) (changed_files : list string)
  : result bool :=
  match paths with
  | [] => Ok false
  | pattern :: rest =>
      re <- glob_to_regex pattern ;;
      compiled <- Re.compile re ;;
      if any_match compiled changed_files then Ok true
      else rule_matched rest changed_files
  end.

(** [for rule_file in sorted(rules_dir.glob("*.md")): ...] *)
Fixpoint match_loop (changed_files : list string) (rule_files : list rule_file)
                    (matched : list (string * string))
  : result (list (string * string)) :=
  match rule_files with
  | [] => Ok matched
  | (path, content) :: rest =>
      match parse_frontmatter_paths content with
      | [] => match_loop changed_files rest matched
      | paths =>
          hit <- rule_matched paths changed_files ;;
          if (hit : bool)
          then match_loop changed_files rest
                 (matched ++ [(path, strip_frontmatter content)])
          else match_loop changed_files rest matched
      end
  end.

Definition match_rules (changed_files : list string) (rules_dir : directory)
  : result (list (string * string)) :=
  match_loop changed_files (sorted (glob_md rules_dir)) [].

(** ** main *)

(** What one run of the script leaves behind. *)
Record outcome : Type := {
  stdout : string;
  stderr : string;
  status : nat
}.

(** How [main] ends: by returning or [sys.exit], or with an exception
    that nothing catches. *)
Inductive termination : Type :=
| Exited (o : outcome)
| Uncaught (e : exn)
| UncaughtOSError      (* [open] failed *)
| Unfinished.          (* out of fuel *)

(** [for line in f]: the lines of a text file, each with the line feed
    that ends it; the text is what the file object hands out, after its
    translation of line ends. *)
Fixpoint file_lines (text : string) : list string :=
  match text with
  | EmptyString => []
  | String c text' =>
      if Ascii.eqb c LF then String LF "" :: file_lines text'
      else match file_lines text' with
           | [] => [String c ""]
           | line :: others => String c line :: others
           end
  end.

(** [[line.strip() for line in f if line.strip()]] *)
Definition read_changed_files (text : string) : list string :=
  map Str.strip
      (filter (fun line => negb (Str.strip line =? "")) (file_lines text)).

(** The text that [print(s)] writes. *)
Definition print (s : string) : string := s ++ nl.

(** [str(n)] of a length. *)
Definition str_of_nat (n : nat) : string :=
  NilEmpty.string_of_uint (Nat.to_uint n).

Definition USAGE : string := "Usage: match-rules.py <changed-files.txt>".
Definition SENTINEL : string := "<!-- no-matching-rules -->".

(** The text written by a loop of [print] calls, one group per element. *)
Fixpoint print_each {A : Type} (f : A -> string) (l : list A) : string :=
  match l with
  | [] => ""
  | x :: l' => f x ++ print_each f l'
  end.

(** The summary of the matched rules.  The label and the counter word
    are kept as the bytes that a UTF-8 standard output receives; nothing
    in the script reads them. *)
Definition print_summary (matched : list (string * string)) : string :=
  print ("マッチしたルール: " ++ str_of_nat (List.length matched) ++ " 件" ++ nl)
  ++ print_each (fun m => print ("- `" ++ fst m ++ "`")) matched
  ++ print "".

(** The body of every matched rule under its heading. *)
Definition print_bodies (matched : list (string * string)) : string :=
  print_each (fun m => print ("### " ++ fst m ++ nl) ++ print (snd m)
                       ++ print "") matched.

Definition no_match : termination :=
  Exited {| stdout := print SENTINEL; stderr := ""; status := 0 |}.

(** [main()], given [sys.argv], the text files that [open] can read and
    the files of [.claude/rules].  [open_text path] is the decoded text
    of the file, [None] when [open] fails; a file that opens but cannot
    be decoded, and an output stream that cannot take what [print]
    writes, are outside the model. *)
Definition main (argv : list string) (open_text : string -> option string)
                (rules_dir : directory) : termination :=
  if (List.length argv <? 2)%nat then
    Exited {| stdout := ""; stderr := print USAGE; status := 1 |}
  else
    match nth_error argv 1 with
    | None => Uncaught IndexError
    | Some changed_files_path =>
        match open_text changed_files_path with
        | None => UncaughtOSError
        | Some text =>
            match read_changed_files text with
            | [] => no_match
            | changed_files =>
                match match_rules changed_files rules_dir with
                | Ok [] => no_match
                | Ok matched =>
                    Exited {| stdout := print_summary matched
                                        ++ print_bodies matched;
                              stderr := "";
                              status := 0 |}
                | Raise e => Uncaught e
                | OutOfFuel => Unfinished
                end
            end
        end
    end.

(** * Vocabulary of the statements *)

(** ** The tokens of a glob pattern

    [tokens] reads a pattern the way the loop of [glob_to_regex] does, but
    by recursion on the text that is left instead of an index. *)

Inductive token : Type :=
| TDirs                (* **/ *)
| TAny                 (* **  *)
| TSeg                 (* *   *)
| TOne                 (* ?   *)
| TEsc (c : ascii)     (* a character of [regex_meta] *)
| TLit (c : ascii).    (* any other character *)

Fixpoint tokens (s : string) : list token :=
  match s with
  | EmptyString => []
  | String c rest =>
      if Ascii.eqb c "*" then
        match rest with
        | String c1 rest1 =>
            if Ascii.eqb c1 "*" then
              match rest1 with
              | String c2 rest2 =>
                  if Ascii.eqb c2 "/" then TDirs :: tokens rest2
                  else TAny :: tokens rest1
              | EmptyString => TAny :: tokens rest1
              end
            else TSeg :: tokens rest
        | EmptyString => TSeg :: tokens rest
        end
      else if Ascii.eqb c "?" then TOne :: tokens rest
      else if Str.mem c regex_meta then TEsc c :: tokens rest
      else TLit c :: tokens rest
  end.

(** The piece of regular expression text the loop appends for a token. *)
Definition render (t : token) : string :=
  match t with
  | TDirs => "(?:.+/)?"
  | TAny => ".*"
  | TSeg => "[^/]*"
  | TOne => "[^/]"
  | TEsc c => String "\" (String c "")
  | TLit c => String c ""
  end.

(** The number of pattern characters a token takes: the step of [i]. *)
Definition width (t : token) : nat :=
  match t with
  | TDirs => 3
  | TAny => 2
  | _ => 1
  end.

(** What [re.compile] makes of [render t]. *)
Definition token_regex (t : token) : Re.regex :=
  match t with
  | TDirs =>
      Re.Opt (Re.Group (Re.seq [Re.Plus Re.AnyChar; Re.Char (Re.Literal "/")]))
  | TAny => Re.Star Re.AnyChar
  | TSeg => Re.Star (Re.NotLiteral "/")
  | TOne => Re.Char (Re.NotLiteral "/")
  | TEsc c => Re.Char (Re.Literal c)
  | TLit c => Re.Char (Re.Literal c)
  end.

(** What [tokens] guarantees about the characters it keeps. *)
Definition token_ok (t : token) : bool :=
  match t with
  | TEsc c => Str.mem c regex_meta
  | TLit c =>
      negb (Str.mem c regex_meta) && negb (Ascii.eqb c "*")
      && negb (Ascii.eqb c "?")
  | _ => true
  end.

(** The text that [glob_to_regex] returns. *)
Definition regex_text (pattern : string) : string :=
  "^" ++ Str.join "" (map render (tokens pattern)) ++ "$".

(** The compiled form of a glob pattern. *)
Definition glob_regex (pattern : string) : Re.regex :=
  Re.seq (Re.AtBeginning :: map token_regex (tokens pattern) ++ [Re.AtEnd]).

(** What the matcher of a pattern computes on a candidate: the items of
    the pattern, then [$]. *)
Definition glob_accepts (pattern f : string) : bool :=
  Re.run (Re.seq (map token_regex (tokens pattern)))
         (fun _ s => Re.at_end s) true f.

(** No [^] and no [$] inside. *)
Fixpoint anchor_free (r : Re.regex) : bool :=
  match r with
  | Re.AtBeginning | Re.AtEnd => false
  | Re.Seq r1 r2 => anchor_free r1 && anchor_free r2
  | Re.Opt r' | Re.Group r' => anchor_free r'
  | _ => true
  end.

(** [k'] accepts, with [t] appended, what [k] accepts after some prefix
    of [s] has been read. *)
Definition carries (t : string) (k k' : bool -> string -> bool) (s : string)
  : Prop :=
  forall b p s', s = p ++ s' -> k b s' = true -> k' b (s' ++ t) = true.

(** ** Rule files

    The rule file has a pattern that accepts one of the changed files. *)
Definition included (changed_files : list string) (f : rule_file) : bool :=
  existsb (fun pattern => existsb (glob_accepts pattern) changed_files)
          (parse_frontmatter_paths (snd f)).

(** The entry of the result for a rule file. *)
Definition entry (f : rule_file) : string * string :=
  (fst f, strip_frontmatter (snd f)).

(** Two rule documents. *)
Definition go_rule : string :=
  Str.join nl ["---"; "paths:"; "  - 'src/**/*.go'"; "---"; ""; "Go rules"].

Definition doc_rule : string :=
  Str.join nl ["---"; "paths:"; "  - docs/*.md"; "---"; "Doc rules"].

(** ** Ends of a string *)

Fixpoint all_of (p : ascii -> bool) (s : string) : bool :=
  match s with
  | EmptyString => true
  | String c s' => p c && all_of p s'
  end.

Definition first_char (s : string) : option ascii :=
  match s with
  | EmptyString => None
  | String c _ => Some c
  end.

Fixpoint last_char (s : string) : option ascii :=
  match s with
  | EmptyString => None
  | String c s' =>
      match s' with
      | EmptyString => Some c
      | String _ _ => last_char s'
      end
  end.

Definition rejects (p : ascii -> bool) (c : option ascii) : bool :=
  match c with
  | Some x => negb (p x)
  | None => true
  end.

Definition clean_ends (p : ascii -> bool) (s : string) : bool :=
  rejects p (first_char s) && rejects p (last_char s).

(** [part] is [whole] without its leading and trailing characters that
    satisfy [p]: all of them, not only the outermost one. *)
Definition trimmed_of (p : ascii -> bool) (whole part : string) : Prop :=
  exists pre post,
    whole = pre ++ part ++ post
    /\ all_of p pre = true /\ all_of p post = true
    /\ clean_ends p part = true.

(** ** Frontmatter

    Following the words of the specification: one layer of quotes, that
    is at most one quote character off each end. *)
Definition is_quote (c : ascii) : bool :=
  Ascii.eqb c DQUOTE || Ascii.eqb c SQUOTE.

Definition drop_leading_quote (s : string) : string :=
  match s with
  | EmptyString => EmptyString
  | String c s' => if is_quote c then s' else s
  end.

Fixpoint drop_trailing_quote (s : string) : string :=
  match s with
  | EmptyString => EmptyString
  | String c s' =>
      match s' with
      | EmptyString => if is_quote c then EmptyString else s
      | String _ _ => String c (drop_trailing_quote s')
      end
  end.

Definition one_layer_pattern (stripped : string) : string :=
  drop_trailing_quote
    (drop_leading_quote (Str.strip (Str.drop 2 stripped))).

(** The mode of the loop of [parse_frontmatter_paths] after the given
    lines: [None] once the loop has been left by [break]. *)
Fixpoint mode_after (in_paths : bool) (lines : list string) : option bool :=
  match lines with
  | [] => Some in_paths
  | line :: rest =>
      let stripped := Str.strip line in
      if stripped =? DELIM then None
      else if stripped =? "paths:" then mode_after true rest
      else if in_paths && Str.startswith "- " stripped then
        mode_after in_paths rest
      else if in_paths && negb (stripped =? "")
              && negb (Str.startswith "- " stripped) then None
      else mode_after in_paths rest
  end.

(** A document with frontmatter, empty lines after it and a later line of
    dashes in the body. *)
Definition sample_doc : string :=
  Str.join nl ["---"; "paths:"; "  - a/*"; " --- "; ""; ""; "Title"; "";
               "---"; "text"].

(** ** Segments of a path *)

(** [\.md] followed by [$], the rest of the matcher of [*.md]. *)
Definition md_tail : bool -> string -> bool :=
  Re.run (Re.seq (map token_regex [TEsc "."; TLit "m"; TLit "d"]))
         (fun _ s => Re.at_end s).

(** A segment of a path, as [**/] needs it: not empty, no line feed. *)
Definition segment_ok (d : string) : bool :=
  negb (d =? "") && negb (Str.mem LF d).

(** The segments, each followed by its separator. *)
Definition with_separators (dirs : list string) : string :=
  Str.join "" (map (fun d => d ++ "/") dirs).

(** ** Further vocabulary *)

(** A list item in the format of the docstring: two spaces, the marker,
    the pattern between double quotes. *)
Definition item_line (p : string) : string :=
  "  - " ++ String DQUOTE (p ++ String DQUOTE "").

(** A rule document in the format of the docstring, followed by a body. *)
Definition frontmatter_doc (ps : list string) (body : string) : string :=
  Str.join nl ("---" :: "paths:" :: map item_line ps ++ ["---"])
  ++ nl ++ body.

(** A pattern that survives the quoting: no line feed, and no quote of
    either kind as its first or last character. *)
Definition plain_pattern (p : string) : bool :=
  negb (Str.mem LF p)
  && clean_ends (fun c => Str.mem c (String DQUOTE "")) p
  && clean_ends (fun c => Str.mem c (String SQUOTE "")) p.

(** The order of [sorted]: by path. *)
Definition path_le (f g : string * string) : Prop :=
  (fst f <=? fst g) = true.

(** The strings one token stands for. *)
Definition spells_token (t : token) (s : string) : Prop :=
  match t with
  | TDirs =>
      s = "" \/ exists c d, s = String c d ++ "/"
                            /\ Str.mem LF (String c d) = false
  | TAny => Str.mem LF s = false
  | TSeg => Str.mem "/" s = false
  | TOne => exists c, s = String c "" /\ c <> "/"%char
  | TEsc c | TLit c => s = String c ""
  end.

(** The strings a sequence of tokens stands for, token after token. *)
Fixpoint spells (toks : list token) (s : string) : Prop :=
  match toks with
  | [] => s = ""
  | t :: toks' =>
      exists s1 s2, s = s1 ++ s2 /\ spells_token t s1 /\ spells toks' s2
  end.

(** [s.count(c)] *)
Fixpoint count_char (c : ascii) (s : string) : nat :=
  match s with
  | EmptyString => 0
  | String x s' => (if Ascii.eqb x c then 1 else 0) + count_char c s'
  end.

(** The pattern has two [*] in a row somewhere. *)
Fixpoint double_star (s : string) : bool :=
  match s with
  | EmptyString => false
  | String c rest =>
      match rest with
      | EmptyString => false
      | String c1 _ =>
          (Ascii.eqb c "*" && Ascii.eqb c1 "*") || double_star rest
      end
  end.

(** * Verification *)

(** ** Strings *)

Section StringFacts.

Lemma append_nil_r (s : string) : s ++ "" = s.
Proof. induction s as [|c s IH]; simpl; [reflexivity | now rewrite IH]. Qed.

Lemma append_assoc (a b c : string) : (a ++ b) ++ c = a ++ (b ++ c).
Proof. induction a as [|x a IH]; simpl; [reflexivity | now rewrite IH]. Qed.

Lemma length_drop (i : nat) (s : string) :
  String.length (Str.drop i s) = String.length s - i.
Proof.
  revert s; induction i as [|i IH]; intros [|c s]; simpl; auto.
Qed.

Lemma drop_add (i j : nat) (s : string) :
  Str.drop (i + j) s = Str.drop j (Str.drop i s).
Proof.
  revert s; induction i as [|i IH]; intros [|c s]; simpl; auto.
  now destruct j.
Qed.

Lemma get_add (i j : nat) (s : string) :
  String.get (i + j) s = String.get j (Str.drop i s).
Proof.
  revert s; induction i as [|i IH]; intros [|c s]; simpl; auto.
Qed.

Lemma join_empty_cons (x : string) (l : list string) :
  Str.join "" (x :: l) = x ++ Str.join "" l.
Proof. destruct l; simpl; [now rewrite append_nil_r | reflexivity]. Qed.

Lemma join_empty_app (l1 l2 : list string) :
  Str.join "" (l1 ++ l2) = Str.join "" l1 ++ Str.join "" l2.
Proof.
  induction l1 as [|x l1 IH]; [reflexivity|].
  rewrite <- app_comm_cons, !join_empty_cons, IH, append_assoc.
  reflexivity.
Qed.

End StringFacts.

(** ** The loop of [glob_to_regex] reads the tokens of the pattern *)

Lemma tokens_ok (s : string) : forallb token_ok (tokens s) = true.
Proof.
  remember (String.length s) as n eqn:Hn.
  revert s Hn; induction n as [n IH] using lt_wf_ind; intros s Hn.
  assert (Hsub : forall s', String.length s' < n ->
                            forallb token_ok (tokens s') = true)
    by (intros s' Hs'; apply (IH _ Hs' s' eq_refl)).
  destruct s as [|c rest]; [reflexivity|].
  cbn [tokens].
  destruct (Ascii.eqb c "*") eqn:Estar.
  - destruct rest as [|c1 rest1]; [reflexivity|].
    destruct (Ascii.eqb c1 "*").
    + destruct rest1 as [|c2 rest2]; [reflexivity|].
      destruct (Ascii.eqb c2 "/"); cbn [forallb token_ok andb];
        apply Hsub; simpl in Hn |- *; lia.
    + cbn [forallb token_ok andb]. apply Hsub; simpl in Hn |- *; lia.
  - destruct (Ascii.eqb c "?") eqn:Eq.
    + cbn [forallb token_ok andb]. apply Hsub; simpl in Hn |- *; lia.
    + destruct (Str.mem c regex_meta) eqn:Em; cbn [forallb token_ok];
        rewrite ?Em, ?Estar, ?Eq; cbn [negb andb];
        apply Hsub; simpl in Hn |- *; lia.
Qed.

(** One iteration of the loop reads one token; no index is out of range. *)
Lemma glob_step_token (pattern : string) (i : nat) :
  i < String.length pattern ->
  exists t,
    glob_step pattern (String.length pattern) i = Ok (render t, i + width t)
    /\ tokens (Str.drop i pattern) = t :: tokens (Str.drop (i + width t) pattern).
Proof.
  intros Hi.
  pose proof (length_drop i pattern) as Hlen.
  pose proof (get_add i 0 pattern) as H0.
  pose proof (get_add i 1 pattern) as H1.
  pose proof (get_add i 2 pattern) as H2.
  pose proof (drop_add i 1 pattern) as D1.
  pose proof (drop_add i 2 pattern) as D2.
  pose proof (drop_add i 3 pattern) as D3.
  rewrite Nat.add_0_r in H0.
  unfold glob_step, Str.index.
  rewrite H0, H1, H2.
  destruct (Str.drop i pattern) as [|c rest] eqn:Es; [simpl in Hlen; lia|].
  cbn [String.get bind tokens].
  destruct (Ascii.eqb c "*") eqn:Estar.
  - destruct rest as [|c1 rest1].
    + destruct (Nat.ltb_spec (i + 1) (String.length pattern));
        [simpl in Hlen; lia|].
      exists TSeg. cbn [bind render width]. rewrite D1. now split.
    + destruct (Nat.ltb_spec (i + 1) (String.length pattern));
        [|simpl in Hlen; lia].
      cbn [String.get bind].
      destruct (Ascii.eqb c1 "*") eqn:Estar1.
      * destruct rest1 as [|c2 rest2].
        -- destruct (Nat.ltb_spec (i + 2) (String.length pattern));
             [simpl in Hlen; lia|].
           exists TAny. cbn [bind render width]. rewrite D2. now split.
        -- destruct (Nat.ltb_spec (i + 2) (String.length pattern));
             [|simpl in Hlen; lia].
           cbn [String.get bind].
           destruct (Ascii.eqb c2 "/").
           ++ exists TDirs. cbn [render width]. rewrite D3. now split.
           ++ exists TAny. cbn [render width]. rewrite D2. now split.
      * exists TSeg. cbn [bind render width]. rewrite D1. now split.
  - destruct (Ascii.eqb c "?").
    + exists TOne. cbn [render width]. rewrite D1. now split.
    + destruct (Str.mem c regex_meta).
      * exists (TEsc c). cbn [render width]. rewrite D1. now split.
      * exists (TLit c). cbn [render width]. rewrite D1. now split.
Qed.

Lemma width_pos (t : token) : 0 < width t.
Proof. destruct t; simpl; lia. Qed.

Lemma glob_loop_tokens (fuel : nat) (pattern : string) :
  forall (i : nat) (regex : list string),
    String.length pattern - i < fuel ->
    glob_loop fuel pattern (String.length pattern) i regex
    = Ok (regex ++ map render (tokens (Str.drop i pattern)))%list.
Proof.
  induction fuel as [|fuel IH]; intros i regex Hfuel; [lia|].
  simpl glob_loop.
  destruct (Nat.ltb_spec i (String.length pattern)) as [Hi|Hi].
  - destruct (glob_step_token pattern i Hi) as [t [Hstep Htok]].
    rewrite Hstep. cbn [bind fst snd].
    pose proof (width_pos t).
    rewrite IH by lia.
    rewrite Htok, <- app_assoc. reflexivity.
  - pose proof (length_drop i pattern) as Hlen.
    destruct (Str.drop i pattern); [|simpl in Hlen; lia].
    simpl. now rewrite app_nil_r.
Qed.

Lemma glob_to_regex_fuel_text (fuel : nat) (pattern : string) :
  String.length pattern < fuel ->
  glob_to_regex_fuel fuel pattern = Ok (regex_text pattern).
Proof.
  intros Hfuel. unfold glob_to_regex_fuel.
  rewrite glob_loop_tokens by lia. reflexivity.
Qed.

Lemma glob_to_regex_text (pattern : string) :
  glob_to_regex pattern = Ok (regex_text pattern).
Proof. apply glob_to_regex_fuel_text. lia. Qed.

(** ** [re.compile] on the text of [glob_to_regex] *)

Lemma parse_token (t : token) (rest : string)
      (stack : list (list Re.regex)) (cur : list Re.regex) :
  token_ok t = true ->
  Re.parse (render t ++ rest) stack cur
  = Re.parse rest stack (token_regex t :: cur).
Proof.
  destruct t as [| | | |c|c]; intros H; try reflexivity.
  - (* an escaped character *)
    cbn [token_ok] in H. unfold regex_meta in H. cbn [Str.mem] in H.
    cbn [render token_regex append].
    repeat match type of H with
           | context [Ascii.eqb c ?x] =>
               destruct (Ascii.eqb_spec c x) as [->|?]; [reflexivity|]
           end.
    discriminate H.
  - (* a literal character *)
    cbn [token_ok] in H. cbn [render token_regex append Re.parse].
    repeat match goal with
           | |- context [Ascii.eqb c ?x] =>
               destruct (Ascii.eqb_spec c x) as [->|?];
               [exfalso; vm_compute in H; discriminate H|]
           end.
    reflexivity.
Qed.

Lemma parse_tokens (toks : list token) (rest : string)
      (stack : list (list Re.regex)) (cur : list Re.regex) :
  forallb token_ok toks = true ->
  Re.parse (Str.join "" (map render toks) ++ rest) stack cur
  = Re.parse rest stack (rev (map token_regex toks) ++ cur).
Proof.
  revert cur; induction toks as [|t toks IH]; intros cur H; [reflexivity|].
  cbn [forallb] in H. apply andb_prop in H as [Ht Htoks].
  cbn [map]. rewrite join_empty_cons, append_assoc, parse_token by exact Ht.
  rewrite IH by exact Htoks.
  cbn [rev]. now rewrite <- app_assoc.
Qed.

Lemma compile_regex_text (pattern : string) :
  Re.compile (regex_text pattern) = Ok (glob_regex pattern).
Proof.
  unfold Re.compile, regex_text, glob_regex.
  change ("^" ++ ?s) with (String "^" s).
  cbn [Re.parse]. change (Ascii.eqb "^" "(") with false.
  cbv beta iota.
  transitivity (Re.parse "" []
                  (Re.AtEnd :: rev (map token_regex (tokens pattern))
                     ++ [Re.AtBeginning])).
  - rewrite parse_tokens by apply tokens_ok. reflexivity.
  - cbn [Re.parse rev]. rewrite rev_app_distr, rev_involutive. reflexivity.
Qed.

(** ** Matching with the compiled form *)

Section RunFacts.

Lemma star_ext (k k' : bool -> string -> bool) (cs : Re.charset) :
  (forall b s, k b s = k' b s) ->
  forall s b, Re.star k cs b s = Re.star k' cs b s.
Proof.
  intros Hk; induction s as [|c s IH]; intros b; simpl.
  - apply Hk.
  - now rewrite IH, Hk.
Qed.

Lemma run_ext (r : Re.regex) :
  forall k k' : bool -> string -> bool,
    (forall b s, k b s = k' b s) ->
    forall b s, Re.run r k b s = Re.run r k' b s.
Proof.
  induction r as [| | |cs|r1 IH1 r2 IH2|cs|cs|r IH|r IH];
    intros k k' Hk b s; simpl.
  - apply Hk.
  - now rewrite Hk.
  - now rewrite Hk.
  - destruct s; [reflexivity | now rewrite Hk].
  - apply IH1. intros b' s'. now apply IH2.
  - now apply star_ext.
  - destruct s; [reflexivity|]. now rewrite (star_ext k k' cs Hk).
  - now rewrite (IH k k' Hk), Hk.
  - now apply IH.
Qed.

Lemma run_seq_app (items1 items2 : list Re.regex) :
  forall (k : bool -> string -> bool) b s,
    Re.run (Re.seq (items1 ++ items2)) k b s
    = Re.run (Re.seq items1) (Re.run (Re.seq items2) k) b s.
Proof.
  induction items1 as [|r items1 IH]; intros k b s; [reflexivity|].
  simpl. apply run_ext. intros b' s'. apply IH.
Qed.

End RunFacts.

Lemma matches_glob_regex (pattern f : string) :
  Re.matches (glob_regex pattern) f = glob_accepts pattern f.
Proof.
  unfold Re.matches, glob_regex, glob_accepts.
  cbn [Re.seq fold_right Re.run andb].
  fold (Re.seq (map token_regex (tokens pattern) ++ [Re.AtEnd])).
  rewrite run_seq_app. apply run_ext.
  intros b s. simpl. apply andb_true_r.
Qed.

Lemma glob_match_accepts (pattern f : string) :
  glob_match pattern f = Ok (glob_accepts pattern f).
Proof.
  unfold glob_match.
  rewrite glob_to_regex_text. cbn [bind].
  rewrite compile_regex_text. cbn [bind].
  now rewrite matches_glob_regex.
Qed.

(** ** Patterns without wildcards *)

Lemma tokens_literal (c : ascii) (rest : string) :
  Ascii.eqb c "*" = false -> Ascii.eqb c "?" = false ->
  exists t, tokens (String c rest) = t :: tokens rest
            /\ token_regex t = Re.Char (Re.Literal c).
Proof.
  intros Hstar Hq. cbn [tokens]. rewrite Hstar, Hq.
  destruct (Str.mem c regex_meta); eexists; split; reflexivity.
Qed.

Lemma accepts_literal (P : string) :
  Str.mem "*" P = false -> Str.mem "?" P = false ->
  forall b F,
    Re.run (Re.seq (map token_regex (tokens P))) (fun _ s => Re.at_end s) b F
    = (F =? P) || (F =? P ++ nl).
Proof.
  induction P as [|c P IH]; intros Hstar Hq b F.
  - unfold nl.
    destruct F as [|d [|e F]];
      cbn [tokens map Re.seq fold_right Re.run Re.at_end String.eqb append orb];
      try reflexivity; destruct (Ascii.eqb d LF); reflexivity.
  - cbn [Str.mem] in Hstar, Hq.
    apply orb_false_elim in Hstar as [Hc1 Hstar].
    apply orb_false_elim in Hq as [Hc2 Hq].
    rewrite Ascii.eqb_sym in Hc1. rewrite Ascii.eqb_sym in Hc2.
    destruct (tokens_literal c P Hc1 Hc2) as [t [Htok Hre]].
    rewrite Htok. cbn [map Re.seq fold_right Re.run]. rewrite Hre.
    cbn [Re.run Re.accepts].
    destruct F as [|d F]; [reflexivity|].
    fold (Re.seq (map token_regex (tokens P))).
    rewrite (IH Hstar Hq). cbn [append String.eqb].
    destruct (Ascii.eqb d c); reflexivity.
Qed.

(** ** A final [**] *)

Lemma star_any_no_lf (k : bool -> string -> bool) :
  (forall b, k b "" = true) ->
  forall F b, Str.mem LF F = false -> Re.star k Re.AnyChar b F = true.
Proof.
  intros Hk; induction F as [|c F IH]; intros b HF; simpl.
  - apply Hk.
  - cbn [Str.mem] in HF. apply orb_false_elim in HF as [Hc HF].
    rewrite Ascii.eqb_sym in Hc. rewrite Hc, IH by exact HF. reflexivity.
Qed.

(** ** Appending to an accepted candidate *)

Lemma tokens_anchor_free (toks : list token) :
  anchor_free (Re.seq (map token_regex toks)) = true.
Proof.
  induction toks as [|t toks IH]; [reflexivity|].
  cbn [map Re.seq fold_right anchor_free].
  fold (Re.seq (map token_regex toks)). rewrite IH.
  now destruct t.
Qed.

Section Extend.
Variable t : string.

Lemma carries_suffix (k k' : bool -> string -> bool) (p s : string) :
  carries t k k' (p ++ s) -> carries t k k' s.
Proof.
  intros H b q s' -> Hk. apply (H b (p ++ q)); [|exact Hk].
  now rewrite append_assoc.
Qed.

Lemma star_extend (k k' : bool -> string -> bool) (cs : Re.charset) :
  forall s b,
    carries t k k' s ->
    Re.star k cs b s = true -> Re.star k' cs b (s ++ t) = true.
Proof.
  induction s as [|c s IH]; intros b Hc H.
  - simpl in H. apply (Hc b "" "" eq_refl) in H.
    destruct ("" ++ t) eqn:E; simpl in E; subst; simpl; [exact H|].
    rewrite H. apply orb_true_r.
  - simpl in H. cbn [append Re.star].
    apply orb_prop in H as [H|H].
    + apply andb_prop in H as [Ha H]. rewrite Ha.
      rewrite (IH false); [reflexivity| |exact H].
      apply (carries_suffix k k' (String c "")). exact Hc.
    + apply (Hc b "" (String c s) eq_refl) in H. cbn [append] in H.
      rewrite H. apply orb_true_r.
Qed.

Lemma run_extend (r : Re.regex) :
  anchor_free r = true ->
  forall (k k' : bool -> string -> bool) b s,
    carries t k k' s ->
    Re.run r k b s = true -> Re.run r k' b (s ++ t) = true.
Proof.
  induction r as [| | |cs|r1 IH1 r2 IH2|cs|cs|r IH|r IH];
    intros Hfree k k' b s Hc H; cbn [anchor_free] in Hfree;
    try discriminate Hfree; cbn [Re.run] in H |- *.
  - exact (Hc b "" s eq_refl H).
  - destruct s as [|c s]; [discriminate H|].
    apply andb_prop in H as [Ha H]. cbn [append]. rewrite Ha.
    exact (Hc false (String c "") s eq_refl H).
  - apply andb_prop in Hfree as [Hf1 Hf2].
    apply (IH1 Hf1 (Re.run r2 k)); [|exact H].
    intros b' p s' -> Hr.
    apply (IH2 Hf2 k); [|exact Hr].
    apply (carries_suffix k k' p). exact Hc.
  - now apply (star_extend k).
  - destruct s as [|c s]; [discriminate H|].
    apply andb_prop in H as [Ha H]. cbn [append]. rewrite Ha.
    apply (star_extend k); [|exact H].
    apply (carries_suffix k k' (String c "")). exact Hc.
  - apply orb_prop in H as [H|H].
    + rewrite (IH Hfree k k' b s Hc H). reflexivity.
    + rewrite (Hc b "" s eq_refl H). apply orb_true_r.
  - now apply (IH Hfree k).
Qed.

End Extend.

Lemma endswith_app (p q : string) : Str.endswith p (q ++ p) = true.
Proof.
  induction q as [|c q IH].
  - destruct p; simpl; now rewrite ?Ascii.eqb_refl, ?String.eqb_refl.
  - cbn [append Str.endswith]. rewrite IH. apply orb_true_r.
Qed.

(** ** A [*] stays inside one segment; a [**/] takes whole segments *)

Ltac case_char_tests :=
  repeat match goal with
         | |- context [Ascii.eqb ?u ?v] =>
             is_var u; destruct (Ascii.eqb u v)
         end.

Lemma md_tail_needs_start (c : ascii) (stem : string) (b : bool) :
  md_tail b (String c (stem ++ ".md")) = false.
Proof.
  unfold md_tail.
  destruct stem as [|x [|y [|z [|w stem]]]];
    cbn [map token_regex Re.seq fold_right Re.run Re.accepts Re.at_end append];
    case_char_tests; reflexivity.
Qed.

Lemma star_segment (stem : string) :
  forall b,
    Re.star md_tail (Re.NotLiteral "/") b (stem ++ ".md")
    = negb (Str.mem "/" stem).
Proof.
  induction stem as [|c stem IH]; intros b; [reflexivity|].
  cbn [append Re.star Re.accepts Str.mem].
  rewrite IH, md_tail_needs_start, orb_false_r, (Ascii.eqb_sym "/" c).
  now destruct (Ascii.eqb c "/").
Qed.

Lemma star_any_upto (k : bool -> string -> bool) (rest : string) :
  (forall b, k b rest = true) ->
  forall d b, Str.mem LF d = false ->
              Re.star k Re.AnyChar b (d ++ rest) = true.
Proof.
  intros Hk; induction d as [|c d IH]; intros b Hd.
  - cbn [append]. destruct rest; cbn [Re.star]; rewrite Hk;
      [reflexivity | apply orb_true_r].
  - cbn [Str.mem] in Hd. apply orb_false_elim in Hd as [Hc Hd].
    rewrite Ascii.eqb_sym in Hc.
    cbn [append Re.star Re.accepts]. now rewrite Hc, IH.
Qed.

Lemma mem_app (c : ascii) (s1 s2 : string) :
  Str.mem c (s1 ++ s2) = Str.mem c s1 || Str.mem c s2.
Proof.
  induction s1 as [|x s1 IH]; [reflexivity|].
  cbn [append Str.mem]. now rewrite IH, orb_assoc.
Qed.

Lemma with_separators_split (d : string) (dirs : list string) :
  segment_ok d = true -> forallb segment_ok dirs = true ->
  exists c init,
    with_separators (d :: dirs) = String c init ++ "/"
    /\ Str.mem LF (String c init) = false.
Proof.
  revert d; induction dirs as [|e dirs IH]; intros d Hd Hdirs;
    unfold segment_ok in Hd; apply andb_prop in Hd as [Hne Hlf];
    apply negb_true_iff in Hlf; destruct d as [|c d]; try discriminate Hne.
  - exists c, d. split; [reflexivity | exact Hlf].
  - cbn [forallb] in Hdirs. apply andb_prop in Hdirs as [He Hdirs].
    destruct (IH e He Hdirs) as [c' [init [Hsplit Hinit]]].
    exists c, (d ++ "/" ++ String c' init).
    unfold with_separators in Hsplit |- *. cbn [map] in Hsplit |- *.
    rewrite join_empty_cons, Hsplit. split.
    + cbn [append]. now rewrite !append_assoc.
    + change (String c (d ++ "/" ++ String c' init))
        with (String c d ++ "/" ++ String c' init).
      rewrite !mem_app, Hlf, Hinit. reflexivity.
Qed.

(** ** Claims on the pattern compiler and its matchers *)

(** C9.  For every pattern, malformed or not, [glob_to_regex] ends within
    the fuel [len(pattern) + 1] without raising, and [re.compile] accepts
    the text it returns. *)
Theorem glob_to_regex_total_compiles :
  forall pattern : string,
  exists (re : string) (compiled : Re.regex),
    glob_to_regex pattern = Ok re /\ Re.compile re = Ok compiled.
Proof.
  intros pattern. exists (regex_text pattern), (glob_regex pattern). split.
  - apply glob_to_regex_text.
  - apply compile_regex_text.
Qed.

(** C4.  The matcher of [**/config.yml] accepts [config.yml] and
    [a/b/config.yml] and rejects [config.yml.bak]; more generally it
    accepts [config.yml] after any number of segments that each come with
    their separator. *)
Theorem double_star_slash_examples :
  glob_to_regex "**/config.yml" = Ok "^(?:.+/)?config\.yml$"
  /\ glob_match "**/config.yml" "config.yml" = Ok true
  /\ glob_match "**/config.yml" "a/b/config.yml" = Ok true
  /\ glob_match "**/config.yml" "config.yml.bak" = Ok false
  /\ forall dirs : list string,
       forallb segment_ok dirs = true ->
       glob_match "**/config.yml" (with_separators dirs ++ "config.yml")
       = Ok true.
Proof.
  repeat split; try (vm_compute; reflexivity).
  intros dirs Hdirs. rewrite glob_match_accepts. f_equal.
  destruct dirs as [|d dirs]; [reflexivity|].
  cbn [forallb] in Hdirs. apply andb_prop in Hdirs as [Hd Hdirs].
  destruct (with_separators_split d dirs Hd Hdirs) as [c [init [-> Hlf]]].
  cbn [Str.mem] in Hlf. apply orb_false_elim in Hlf as [Hc Hinit].
  rewrite Ascii.eqb_sym in Hc.
  unfold glob_accepts.
  let toks := eval vm_compute in (tokens "**/config.yml") in
  change (tokens "**/config.yml") with toks.
  rewrite append_assoc.
  cbn [map token_regex Re.seq fold_right Re.run append Re.accepts].
  rewrite Hc. cbn [negb andb].
  rewrite star_any_upto; [reflexivity | reflexivity | exact Hinit].
Qed.

Lemma double_star_slash_examples_witness :
  glob_match "**/config.yml" (with_separators ["src"; "pkg"] ++ "config.yml")
  = Ok true.
Proof.
  destruct double_star_slash_examples as [_ [_ [_ [_ Hdirs]]]].
  apply (Hdirs ["src"; "pkg"]). reflexivity.
Defined.

(** C5.  The matcher of [*.md] accepts [rules.md] and rejects [a/rules.md]
    and [rules.md.bak]; more generally it accepts a stem followed by [.md]
    exactly when the stem has no separator. *)
Theorem single_star_examples :
  glob_to_regex "*.md" = Ok "^[^/]*\.md$"
  /\ glob_match "*.md" "rules.md" = Ok true
  /\ glob_match "*.md" "a/rules.md" = Ok false
  /\ glob_match "*.md" "rules.md.bak" = Ok false
  /\ forall stem : string,
       glob_match "*.md" (stem ++ ".md") = Ok (negb (Str.mem "/" stem)).
Proof.
  repeat split; try (vm_compute; reflexivity).
  intros stem. rewrite glob_match_accepts. f_equal.
  apply (star_segment stem true).
Qed.

(** C3, as stated, fails: the matcher of [**] rejects a candidate with a
    line feed inside, here [a], line feed, [b]. *)
Lemma double_star_rejects_inner_newline :
  ~ (forall F : string, glob_match "**" F = Ok true).
Proof.
  intros H. specialize (H (String "a" (String LF "b"))).
  vm_compute in H. discriminate H.
Qed.

(** C3, amended.  The matcher of [**] accepts every candidate that
    contains no line feed. *)
Theorem double_star_accepts_lines :
  forall F : string, Str.mem LF F = false -> glob_match "**" F = Ok true.
Proof.
  intros F HF. rewrite glob_match_accepts. f_equal.
  unfold glob_accepts. cbn [tokens Ascii.eqb Bool.eqb].
  cbn [map token_regex Re.seq fold_right Re.run].
  apply star_any_no_lf; [reflexivity | exact HF].
Qed.

Lemma double_star_accepts_lines_witness :
  Str.mem LF "src/pkg/foo.go" = false
  /\ glob_match "**" "src/pkg/foo.go" = Ok true.
Proof.
  split; [reflexivity|].
  apply (double_star_accepts_lines "src/pkg/foo.go"). reflexivity.
Defined.

(** C2, as stated, fails: the matcher of the pattern [a] also accepts
    [a] followed by a line feed. *)
Lemma literal_pattern_accepts_trailing_newline :
  ~ (forall P F : string,
        Str.mem "*" P = false -> Str.mem "?" P = false ->
        (glob_match P F = Ok true <-> F = P)).
Proof.
  intros H.
  destruct (H "a" (String "a" nl) eq_refl eq_refl) as [H1 _].
  specialize (H1 eq_refl). discriminate H1.
Qed.

(** C2, amended.  The matcher of a pattern [P] without [*] and [?]
    accepts the candidate equal to [P] and the candidate [P] followed by
    one line feed, and rejects every other candidate. *)
Theorem literal_pattern_equality :
  forall P F : string,
    Str.mem "*" P = false -> Str.mem "?" P = false ->
    glob_match P P = Ok true
    /\ (glob_match P F = Ok true <-> F = P \/ F = P ++ nl)
    /\ (glob_match P F = Ok false <-> F <> P /\ F <> P ++ nl).
Proof.
  intros P F Hstar Hq.
  rewrite !glob_match_accepts. unfold glob_accepts.
  rewrite !(accepts_literal P Hstar Hq).
  rewrite String.eqb_refl.
  destruct (String.eqb_spec F P) as [E1|E1];
    destruct (String.eqb_spec F (P ++ nl)) as [E2|E2]; cbn [orb];
    (split; [reflexivity|]); split; split; intros H;
    try reflexivity; try discriminate H; try tauto.
Qed.

Lemma literal_pattern_equality_witness :
  glob_match "docs/README.md" "docs/README.md" = Ok true
  /\ (glob_match "docs/README.md" "docs/readme.md" = Ok true
      <-> "docs/readme.md" = "docs/README.md"
          \/ "docs/readme.md" = "docs/README.md" ++ nl)
  /\ (glob_match "docs/README.md" "docs/readme.md" = Ok false
      <-> "docs/readme.md" <> "docs/README.md"
          /\ "docs/readme.md" <> "docs/README.md" ++ nl).
Proof.
  apply (literal_pattern_equality "docs/README.md" "docs/readme.md");
    reflexivity.
Defined.

(** C10, as stated, fails: the empty pattern accepts a single line feed
    but not two. *)
Lemma trailing_newline_not_repeated :
  ~ (forall P s : string,
        glob_match P s = Ok true -> glob_match P (s ++ nl) = Ok true).
Proof.
  intros H. specialize (H "" nl eq_refl). discriminate H.
Qed.

(** C10, amended.  If the matcher of [P] accepts [s] and [s] does not
    itself end with a line feed, it also accepts [s] followed by one line
    feed; the matcher of the empty pattern accepts the empty string and
    the string made of one line feed. *)
Theorem trailing_newline_tolerated :
  forall P s : string,
    glob_match P s = Ok true ->
    Str.endswith nl s = false ->
    glob_match P (s ++ nl) = Ok true
    /\ glob_match "" "" = Ok true /\ glob_match "" nl = Ok true.
Proof.
  intros P s Hs Hend. split; [|split; reflexivity].
  rewrite glob_match_accepts in Hs |- *. f_equal.
  injection Hs as Hs. unfold glob_accepts in Hs |- *.
  apply (run_extend nl _ (tokens_anchor_free (tokens P))
                    (fun _ x => Re.at_end x)); [|exact Hs].
  intros b p s' -> Hk.
  destruct s' as [|c [|d s']]; [reflexivity| |discriminate Hk].
  cbn [Re.at_end] in Hk. apply Ascii.eqb_eq in Hk. subst c.
  fold nl in Hend. now rewrite endswith_app in Hend.
Qed.

Lemma trailing_newline_tolerated_witness :
  glob_match "*.md" ("rules.md" ++ nl) = Ok true
  /\ glob_match "" "" = Ok true /\ glob_match "" nl = Ok true.
Proof.
  apply (trailing_newline_tolerated "*.md" "rules.md"); reflexivity.
Defined.

(** ** Claims on [match_rules] *)

Lemma any_match_existsb (compiled : Re.regex) (changed_files : list string) :
  any_match compiled changed_files
  = existsb (Re.matches compiled) changed_files.
Proof.
  induction changed_files as [|f l IH]; [reflexivity|].
  simpl. rewrite IH. now destruct (Re.matches compiled f).
Qed.

Lemma existsb_glob_regex (pattern : string) (l : list string) :
  existsb (Re.matches (glob_regex pattern)) l
  = existsb (glob_accepts pattern) l.
Proof.
  induction l as [|f l IH]; [reflexivity|].
  simpl. now rewrite IH, matches_glob_regex.
Qed.

Lemma rule_matched_existsb (paths changed_files : list string) :
  rule_matched paths changed_files
  = Ok (existsb (fun pattern => existsb (glob_accepts pattern) changed_files)
                paths).
Proof.
  induction paths as [|pattern paths IH]; [reflexivity|].
  cbn [rule_matched existsb].
  rewrite glob_to_regex_text. cbn [bind].
  rewrite compile_regex_text. cbn [bind].
  rewrite any_match_existsb.
  rewrite existsb_glob_regex.
  destruct (existsb (glob_accepts pattern) changed_files); [reflexivity|].
  exact IH.
Qed.

Lemma match_loop_filter (changed_files : list string) (l : list rule_file) :
  forall matched,
    match_loop changed_files l matched
    = Ok (matched ++ map entry (filter (included changed_files) l))%list.
Proof.
  induction l as [|[path content] l IH]; intros matched.
  - simpl. now rewrite app_nil_r.
  - cbn [match_loop filter]. unfold included at 1. cbn [snd].
    destruct (parse_frontmatter_paths content) as [|p ps] eqn:Epaths.
    + cbn [existsb]. apply IH.
    + rewrite rule_matched_existsb. cbn [bind].
      destruct (existsb _ (p :: ps)).
      * rewrite IH. cbn [map]. now rewrite <- app_assoc.
      * apply IH.
Qed.

Lemma insert_sorted_In (x f : rule_file) (l : list rule_file) :
  In x (insert_sorted f l) <-> x = f \/ In x l.
Proof.
  induction l as [|g l IH]; simpl.
  - intuition.
  - destruct (fst f <=? fst g); simpl; rewrite ?IH; intuition.
Qed.

Lemma sorted_In (x : rule_file) (l : list rule_file) :
  In x (sorted l) <-> In x l.
Proof.
  induction l as [|f l IH]; simpl; [tauto|].
  rewrite insert_sorted_In, IH. intuition.
Qed.

Lemma unique_content (l : list rule_file) (path c1 c2 : string) :
  NoDup (map fst l) -> In (path, c1) l -> In (path, c2) l -> c1 = c2.
Proof.
  induction l as [|[p c] l IH]; intros Hnd H1 H2; [destruct H1|].
  cbn [map fst] in Hnd. inversion Hnd as [|? ? Hnotin Hnd']; subst.
  destruct H1 as [H1|H1], H2 as [H2|H2].
  - congruence.
  - injection H1 as -> ->. exfalso. apply Hnotin.
    change path with (fst (path, c2)). now apply in_map.
  - injection H2 as -> ->. exfalso. apply Hnotin.
    change path with (fst (path, c1)). now apply in_map.
  - now apply IH.
Qed.

(** C1.  In a directory whose files have distinct paths, a rule document
    (a file of the directory whose path ends in [.md]) is in the result of
    [match_rules] if and only if it declares at least one pattern and some
    declared pattern's matcher accepts some changed file; [match_rules]
    itself never raises. *)
Theorem match_rules_includes :
  forall (changed_files : list string) (rules_dir : directory)
         (path content : string),
    NoDup (map fst rules_dir) ->
    In (path, content) rules_dir ->
    Str.endswith ".md" path = true ->
    exists matched,
      match_rules changed_files rules_dir = Ok matched
      /\ (In (path, strip_frontmatter content) matched
          <-> parse_frontmatter_paths content <> []
              /\ exists pattern f,
                   In pattern (parse_frontmatter_paths content)
                   /\ In f changed_files
                   /\ glob_match pattern f = Ok true).
Proof.
  intros changed_files rules_dir path content Hnd Hin Hmd.
  unfold match_rules. rewrite match_loop_filter. cbn [app].
  eexists; split; [reflexivity|].
  assert (Hinc : included changed_files (path, content) = true
                 <-> parse_frontmatter_paths content <> []
                     /\ exists pattern f,
                          In pattern (parse_frontmatter_paths content)
                          /\ In f changed_files
                          /\ glob_match pattern f = Ok true).
  { unfold included. cbn [snd]. rewrite existsb_exists. split.
    - intros [pattern [Hp Hf]]. apply existsb_exists in Hf as [f [Hf Hacc]].
      split; [intros E; rewrite E in Hp; destruct Hp|].
      exists pattern, f. rewrite glob_match_accepts, Hacc. auto.
    - intros [_ [pattern [f [Hp [Hf Hacc]]]]].
      exists pattern. split; [exact Hp|].
      apply existsb_exists. exists f. split; [exact Hf|].
      rewrite glob_match_accepts in Hacc. now injection Hacc. }
  rewrite <- Hinc, in_map_iff. split.
  - intros [[p c] [He Hf]]. unfold entry in He. cbn [fst snd] in He.
    apply filter_In in Hf as [Hs Hi].
    apply (proj1 (sorted_In _ _)) in Hs. apply filter_In in Hs as [Hd _].
    injection He as -> _.
    now rewrite (unique_content rules_dir path content c Hnd Hin Hd).
  - intros Hi. exists (path, content). split; [reflexivity|].
    apply filter_In. split; [|exact Hi].
    apply sorted_In. apply filter_In. now split.
Qed.

Lemma match_rules_includes_witness :
  exists matched,
    match_rules ["src/pkg/foo.go"; "README.md"]
                [("rules/go.md", go_rule); ("rules/doc.md", doc_rule)]
    = Ok matched
    /\ (In ("rules/go.md", strip_frontmatter go_rule) matched
        <-> parse_frontmatter_paths go_rule <> []
            /\ exists pattern f,
                 In pattern (parse_frontmatter_paths go_rule)
                 /\ In f ["src/pkg/foo.go"; "README.md"]
                 /\ glob_match pattern f = Ok true).
Proof.
  apply (match_rules_includes ["src/pkg/foo.go"; "README.md"]
           [("rules/go.md", go_rule); ("rules/doc.md", doc_rule)]
           "rules/go.md" go_rule).
  - repeat constructor; simpl; intuition discriminate.
  - left. reflexivity.
  - reflexivity.
Defined.

Example match_rules_go :
  match_rules ["src/pkg/foo.go"; "README.md"]
              [("rules/go.md", go_rule); ("rules/doc.md", doc_rule)]
  = Ok [("rules/go.md", "Go rules")].
Proof. vm_compute. reflexivity. Qed.

Example match_rules_readme_only :
  match_rules ["README.md"]
              [("rules/go.md", go_rule); ("rules/doc.md", doc_rule)]
  = Ok [].
Proof. vm_compute. reflexivity. Qed.

(** ** Stripping characters from both ends *)

Section Strip.
Variable p : ascii -> bool.

Lemma lstrip_by_split (s : string) :
  exists pre,
    s = pre ++ Str.lstrip_by p s
    /\ all_of p pre = true
    /\ rejects p (first_char (Str.lstrip_by p s)) = true.
Proof.
  induction s as [|c s [pre [Hs [Hpre Hfirst]]]].
  - exists "". now repeat split.
  - cbn [Str.lstrip_by]. destruct (p c) eqn:Hc.
    + exists (String c pre). cbn [append all_of].
      rewrite <- Hs, Hc, Hpre. now repeat split.
    + exists "". cbn [append all_of first_char rejects].
      rewrite Hc. now repeat split.
Qed.

Lemma rstrip_by_split (s : string) :
  exists post,
    s = Str.rstrip_by p s ++ post
    /\ all_of p post = true
    /\ rejects p (last_char (Str.rstrip_by p s)) = true
    /\ (rejects p (first_char s) = true ->
        rejects p (first_char (Str.rstrip_by p s)) = true).
Proof.
  induction s as [|c s [post [Hs [Hpost [Hlast _]]]]].
  - exists "". now repeat split.
  - cbn [Str.rstrip_by].
    destruct (Str.rstrip_by p s) as [|d r] eqn:Er.
    + cbn [append] in Hs. subst s. destruct (p c) eqn:Hc.
      * exists (String c post). cbn [append all_of].
        rewrite Hc, Hpost. now repeat split.
      * exists post. cbn [append last_char first_char rejects].
        rewrite Hc. now repeat split.
    + exists post. cbn [append] in Hs |- *. rewrite <- Hs.
      split; [reflexivity|]. split; [exact Hpost|].
      split; [exact Hlast|]. intros H. exact H.
Qed.

Lemma strip_by_trimmed (s : string) : trimmed_of p s (Str.strip_by p s).
Proof.
  unfold Str.strip_by.
  destruct (lstrip_by_split s) as [pre [Hs [Hpre Hfirst]]].
  destruct (rstrip_by_split (Str.lstrip_by p s))
    as [post [Hl [Hpost [Hlast Hkeep]]]].
  exists pre, post. repeat split; auto.
  - now rewrite <- Hl.
  - unfold clean_ends. now rewrite Hkeep, Hlast.
Qed.

Lemma lstrip_by_all (s : string) :
  all_of p s = true -> Str.lstrip_by p s = "".
Proof.
  induction s as [|c s IH]; [reflexivity|].
  cbn [all_of Str.lstrip_by]. intros H. apply andb_prop in H as [Hc H].
  rewrite Hc. now apply IH.
Qed.

Lemma rstrip_by_all (s : string) :
  all_of p s = true -> Str.rstrip_by p s = "".
Proof.
  induction s as [|c s IH]; [reflexivity|].
  cbn [all_of Str.rstrip_by]. intros H. apply andb_prop in H as [Hc H].
  now rewrite (IH H), Hc.
Qed.

Lemma lstrip_by_app (pre s : string) :
  all_of p pre = true -> Str.lstrip_by p (pre ++ s) = Str.lstrip_by p s.
Proof.
  induction pre as [|c pre IH]; [reflexivity|].
  cbn [all_of append Str.lstrip_by]. intros H.
  apply andb_prop in H as [Hc H]. rewrite Hc. now apply IH.
Qed.

Lemma rstrip_by_app (s post : string) :
  all_of p post = true -> Str.rstrip_by p (s ++ post) = Str.rstrip_by p s.
Proof.
  intros H. induction s as [|c s IH].
  - now apply rstrip_by_all.
  - cbn [append Str.rstrip_by]. now rewrite IH.
Qed.

Lemma rstrip_by_clean (s : string) :
  rejects p (last_char s) = true -> Str.rstrip_by p s = s.
Proof.
  induction s as [|c s IH]; [reflexivity|].
  cbn [last_char Str.rstrip_by]. destruct s as [|d s].
  - cbn [rejects Str.rstrip_by]. intros H.
    now destruct (p c).
  - intros H. now rewrite (IH H).
Qed.

(** [trimmed_of] determines the part: it is what [strip] returns. *)
Lemma trimmed_of_strip_by (whole part : string) :
  trimmed_of p whole part <-> part = Str.strip_by p whole.
Proof.
  split; [|intros ->; apply strip_by_trimmed].
  intros [pre [post [-> [Hpre [Hpost Hclean]]]]].
  unfold Str.strip_by. rewrite lstrip_by_app by exact Hpre.
  unfold clean_ends in Hclean. apply andb_prop in Hclean as [Hf Hl].
  destruct part as [|c part].
  - cbn [append]. now rewrite (lstrip_by_all post Hpost).
  - cbn [first_char rejects] in Hf. cbn [append Str.lstrip_by].
    destruct (p c); [discriminate Hf|].
    change (String c (part ++ post)) with (String c part ++ post).
    now rewrite rstrip_by_app, rstrip_by_clean.
Qed.

End Strip.

(** ** Claims on the list items of the frontmatter *)

Lemma list_item_not_marker (stripped : string) :
  Str.startswith "- " stripped = true ->
  (stripped =? DELIM) = false /\ (stripped =? "paths:") = false.
Proof.
  unfold Str.startswith. intros H.
  destruct stripped as [|a [|b s]]; try discriminate H.
  - cbn [String.prefix] in H.
    destruct (ascii_dec "-" a); discriminate H.
  - cbn [String.prefix] in H.
    destruct (ascii_dec "-" a) as [<-|]; [|discriminate H].
    destruct (ascii_dec " " b) as [<-|]; [|discriminate H].
    split; reflexivity.
Qed.

(** C6, as stated, fails: of the list item [- ''a''] the code keeps [a],
    where one layer of quotes would leave ['a']. *)
Lemma quotes_not_single_layer :
  ~ (forall stripped : string,
        Str.startswith "- " stripped = true ->
        item_pattern stripped = one_layer_pattern stripped).
Proof.
  intros H. specialize (H "- ''a''" eq_refl).
  vm_compute in H. discriminate H.
Qed.

(** C6, amended.  In collecting mode a line whose stripped form starts
    with [- ] adds one pattern: the text after the two-character marker
    without its surrounding whitespace, then without all its leading and
    trailing double quotes, then without all its leading and trailing
    single quotes. *)
Theorem list_item_pattern :
  forall (line : string) (rest paths : list string),
    Str.startswith "- " (Str.strip line) = true ->
    exists unspaced unquoted pattern : string,
      collect_paths true (line :: rest) paths
      = collect_paths true rest (paths ++ [pattern])
      /\ trimmed_of Str.isspace (Str.drop 2 (Str.strip line)) unspaced
      /\ trimmed_of (fun c => Str.mem c (String DQUOTE "")) unspaced unquoted
      /\ trimmed_of (fun c => Str.mem c (String SQUOTE "")) unquoted pattern.
Proof.
  intros line rest paths H.
  destruct (list_item_not_marker _ H) as [Hd Hp].
  exists (Str.strip (Str.drop 2 (Str.strip line))).
  exists (Str.strip_chars (String DQUOTE "")
            (Str.strip (Str.drop 2 (Str.strip line)))).
  exists (item_pattern (Str.strip line)).
  split; [|repeat split; apply strip_by_trimmed].
  cbn [collect_paths]. rewrite Hd, Hp, H. reflexivity.
Qed.

Lemma list_item_pattern_witness :
  exists unspaced unquoted pattern : string,
    collect_paths true ["  - 'src/**/*.go'  "; "---"] []
    = collect_paths true ["---"] ([] ++ [pattern])
    /\ trimmed_of Str.isspace
         (Str.drop 2 (Str.strip "  - 'src/**/*.go'  ")) unspaced
    /\ trimmed_of (fun c => Str.mem c (String DQUOTE "")) unspaced unquoted
    /\ trimmed_of (fun c => Str.mem c (String SQUOTE "")) unquoted pattern.
Proof.
  apply (list_item_pattern "  - 'src/**/*.go'  " ["---"] []). reflexivity.
Defined.

(** ** Claims on the end of pattern collection *)

Lemma collect_paths_app (before after : list string) :
  forall in_paths in_paths' paths,
    mode_after in_paths before = Some in_paths' ->
    collect_paths in_paths (before ++ after) paths
    = collect_paths in_paths' after (collect_paths in_paths before paths).
Proof.
  induction before as [|line before IH]; intros b b' paths Hmode.
  - simpl in Hmode. injection Hmode as <-. reflexivity.
  - cbn [mode_after] in Hmode. cbn [app collect_paths].
    destruct (Str.strip line =? DELIM); [discriminate Hmode|].
    destruct (Str.strip line =? "paths:"); [now apply IH|].
    destruct (b && Str.startswith "- " (Str.strip line)); [now apply IH|].
    destruct (b && negb (Str.strip line =? "")
              && negb (Str.startswith "- " (Str.strip line)));
      [discriminate Hmode | now apply IH].
Qed.

(** C7, as stated, fails: a second [paths:] line is a non-empty line that
    neither starts with [- ] nor is the delimiter, and collection goes on
    after it. *)
Lemma paths_key_keeps_collecting :
  ~ (forall (content first line : string) (before after : list string),
        Str.split_nl content = first :: before ++ line :: after ->
        Str.strip first = DELIM ->
        mode_after false before = Some true ->
        Str.strip line <> "" ->
        Str.startswith "- " (Str.strip line) = false ->
        Str.strip line <> DELIM ->
        parse_frontmatter_paths content = collect_paths false before []).
Proof.
  intros H.
  specialize (H (Str.join nl ["---"; "paths:"; "- a"; "paths:"; "- b"; "---"])
                "---" "paths:" ["paths:"; "- a"] ["- b"; "---"]
                eq_refl eq_refl eq_refl).
  assert (Hfalse : ["a"; "b"] = ["a"]);
    [apply H; [discriminate | reflexivity | discriminate] | discriminate Hfalse].
Qed.

(** C7, amended.  In collecting mode a line whose stripped form is not
    empty, does not start with [- ] and is not [paths:] ends pattern
    collection: the result holds the patterns of the lines before it and
    nothing from the lines after it. *)
Theorem collection_ends :
  forall (content first line : string) (before after : list string),
    Str.split_nl content = first :: before ++ line :: after ->
    Str.strip first = DELIM ->
    mode_after false before = Some true ->
    Str.strip line <> "" ->
    Str.startswith "- " (Str.strip line) = false ->
    Str.strip line <> "paths:" ->
    parse_frontmatter_paths content = collect_paths false before [].
Proof.
  intros content first line before after Hsplit Hfirst Hmode Hne Hitem Hkey.
  unfold parse_frontmatter_paths. rewrite Hsplit, Hfirst. cbn [negb].
  rewrite String.eqb_refl. cbn [negb].
  rewrite (collect_paths_app before (line :: after) false true [] Hmode).
  cbn [collect_paths].
  destruct (Str.strip line =? DELIM); [reflexivity|].
  apply String.eqb_neq in Hkey, Hne. rewrite Hkey, Hitem, Hne. reflexivity.
Qed.

Lemma collection_ends_witness :
  parse_frontmatter_paths
    (Str.join nl ["---"; "paths:"; "  - a/*"; "name: x"; "  - b/*"; "---"])
  = collect_paths false ["paths:"; "  - a/*"] [].
Proof.
  apply (collection_ends _ "---" "name: x" ["paths:"; "  - a/*"]
           ["  - b/*"; "---"]);
    try reflexivity; discriminate.
Defined.

(** ** Lines and text *)

Lemma join_cons (x y : string) (l : list string) :
  Str.join nl (x :: y :: l) = x ++ nl ++ Str.join nl (y :: l).
Proof. reflexivity. Qed.

Lemma join_split_nl (s : string) : Str.join nl (Str.split_nl s) = s.
Proof.
  unfold Str.split_nl. induction s as [|c s IH]; [reflexivity|].
  cbn [Str.split_nl_aux].
  destruct (Str.split_nl_aux s) as [first others].
  destruct (Ascii.eqb_spec c LF) as [->|_].
  - rewrite join_cons, IH. reflexivity.
  - destruct others as [|o others].
    + simpl in IH |- *. now rewrite IH.
    + rewrite join_cons in IH |- *. cbn [append]. now rewrite IH.
Qed.

Lemma split_nl_no_lf (s line : string) :
  In line (Str.split_nl s) -> Str.mem LF line = false.
Proof.
  unfold Str.split_nl. revert line. induction s as [|c s IH]; intros line.
  - simpl. intros [<-|[]]. reflexivity.
  - cbn [Str.split_nl_aux].
    destruct (Str.split_nl_aux s) as [first others].
    destruct (Ascii.eqb_spec c LF) as [->|Hc].
    + intros [<-|H]; [reflexivity | now apply IH].
    + intros [<-|H].
      * cbn [Str.mem]. rewrite (IH first (or_introl eq_refl)).
        rewrite Ascii.eqb_sym.
        now destruct (Ascii.eqb_spec c LF).
      * apply IH. now right.
Qed.

(** ** Claims on [strip_frontmatter] *)

Lemma find_close_hit (close : string) (after : list string) :
  Str.strip close = DELIM ->
  forall before done,
    (forall l, In l before -> Str.strip l <> DELIM) ->
    find_close (done ++ before ++ close :: after) (List.length done)
               (before ++ close :: after)
    = Some (Str.lstrip_chars nl (Str.join nl after)).
Proof.
  intros Hclose. induction before as [|b before IH]; intros done Hbefore.
  - cbn [app find_close]. rewrite Hclose, String.eqb_refl.
    rewrite skipn_app, skipn_all2 by lia.
    replace (List.length done + 1 - List.length done) with 1 by lia.
    reflexivity.
  - cbn [app find_close].
    destruct (String.eqb_spec (Str.strip b) DELIM) as [E|_];
      [now apply Hbefore in E; [|left]|].
    specialize (IH (done ++ [b])%list).
    rewrite <- app_assoc, length_app in IH. cbn [app List.length] in IH.
    rewrite Nat.add_1_r in IH. apply IH.
    intros l Hl. apply Hbefore. now right.
Qed.

Lemma find_close_miss (lines todo : list string) :
  (forall l, In l todo -> Str.strip l <> DELIM) ->
  forall i, find_close lines i todo = None.
Proof.
  induction todo as [|line todo IH]; intros Hall i; [reflexivity|].
  cbn [find_close].
  destruct (String.eqb_spec (Str.strip line) DELIM) as [E|_];
    [now apply Hall in E; [|left]|].
  apply IH. intros l Hl. apply Hall. now right.
Qed.

Lemma lstrip_blank_lines (k : nat) (remaining : list string) :
  Str.lstrip_chars nl (Str.join nl (repeat "" k ++ remaining))
  = Str.lstrip_chars nl (Str.join nl remaining).
Proof.
  induction k as [|k IH]; [reflexivity|].
  cbn [repeat app].
  destruct (repeat "" k ++ remaining)%list as [|y l] eqn:E.
  - destruct k; [|discriminate E]. simpl in E. now subst remaining.
  - rewrite join_cons. exact IH.
Qed.

Lemma lstrip_first_line (remaining : list string) :
  hd_error remaining <> Some "" ->
  (forall l, In l remaining -> Str.mem LF l = false) ->
  Str.lstrip_chars nl (Str.join nl remaining) = Str.join nl remaining.
Proof.
  destruct remaining as [|r rs]; [reflexivity|]. intros Hhd Hlf.
  destruct r as [|c r]; [now contradiction Hhd|].
  specialize (Hlf _ (or_introl eq_refl)). cbn [Str.mem] in Hlf.
  apply orb_false_elim in Hlf as [Hc _]. rewrite Ascii.eqb_sym in Hc.
  unfold Str.lstrip_chars.
  destruct rs; cbn [Str.join append Str.lstrip_by Str.mem nl];
    now rewrite Hc.
Qed.

(** C8, as stated, fails: a line of whitespace right after the closing
    delimiter is a blank line, and it is kept.  Of the document [---],
    [---], one space, [body], the code returns the space line and [body],
    not [body] alone. *)
Lemma whitespace_line_kept_after_frontmatter :
  ~ (forall (content first close : string)
            (before blanks remaining : list string),
        Str.split_nl content
        = (first :: before ++ close :: blanks ++ remaining)%list ->
        Str.strip first = DELIM ->
        (forall l, In l before -> Str.strip l <> DELIM) ->
        Str.strip close = DELIM ->
        (forall l, In l blanks -> Str.strip l = "") ->
        (forall l, hd_error remaining = Some l -> Str.strip l <> "") ->
        strip_frontmatter content = Str.join nl remaining).
Proof.
  intros H.
  specialize (H (Str.join nl ["---"; "---"; " "; "body"]) "---" "---"
                [] [" "] ["body"] eq_refl eq_refl).
  assert (Hbody : strip_frontmatter (Str.join nl ["---"; "---"; " "; "body"])
                  = Str.join nl ["body"]).
  { apply H.
    - intros l [].
    - reflexivity.
    - intros l [<-|[]]. reflexivity.
    - intros l Hl. injection Hl as <-. discriminate. }
  vm_compute in Hbody. discriminate Hbody.
Qed.

(** C8, amended.  For a document whose first line strips to [---]: when
    a later line strips to [---], [strip_frontmatter] returns the lines
    after the first such line, without the empty lines (lines of no
    character at all) that come first among them and otherwise
    unchanged, a line of whitespace included; when no later line strips
    to [---], it returns the original text. *)
Theorem strip_frontmatter_body :
  forall (content first : string) (others : list string),
    Str.split_nl content = first :: others ->
    Str.strip first = DELIM ->
    content = Str.join nl (first :: others)
    /\ (forall (before : list string) (close : string) (k : nat)
               (remaining : list string),
           others = (before ++ close :: repeat "" k ++ remaining)%list ->
           (forall l, In l before -> Str.strip l <> DELIM) ->
           Str.strip close = DELIM ->
           hd_error remaining <> Some "" ->
           strip_frontmatter content = Str.join nl remaining)
    /\ ((forall l, In l others -> Str.strip l <> DELIM) ->
        strip_frontmatter content = content).
Proof.
  intros content first others Hsplit Hfirst.
  split; [now rewrite <- Hsplit, join_split_nl|].
  unfold strip_frontmatter. rewrite Hsplit, Hfirst, String.eqb_refl.
  cbn [negb]. split.
  - intros before close k remaining -> Hbefore Hclose Hhd.
    pose proof (find_close_hit close (repeat "" k ++ remaining) Hclose
                  before [first] Hbefore) as Hfound.
    cbn [app List.length] in Hfound. rewrite Hfound.
    rewrite lstrip_blank_lines. apply lstrip_first_line; [exact Hhd|].
    intros l Hl. apply (split_nl_no_lf content). rewrite Hsplit.
    right. apply in_or_app. right. right. apply in_or_app. now right.
  - intros Hall. now rewrite find_close_miss.
Qed.

Lemma strip_frontmatter_body_witness :
  strip_frontmatter sample_doc = Str.join nl ["Title"; ""; "---"; "text"]
  /\ strip_frontmatter (Str.join nl ["---"; "paths:"; "body"])
     = Str.join nl ["---"; "paths:"; "body"].
Proof.
  split.
  - destruct (strip_frontmatter_body sample_doc "---"
                ["paths:"; "  - a/*"; " --- "; ""; ""; "Title"; ""; "---";
                 "text"] eq_refl eq_refl) as [_ [Hclosed _]].
    apply (Hclosed ["paths:"; "  - a/*"] " --- " 2
                   ["Title"; ""; "---"; "text"]);
      [reflexivity | | reflexivity | discriminate].
    intros l [<-|[<-|[]]]; discriminate.
  - destruct (strip_frontmatter_body
                (Str.join nl ["---"; "paths:"; "body"]) "---"
                ["paths:"; "body"] eq_refl eq_refl) as [_ [_ Hopen]].
    apply Hopen. intros l [<-|[<-|[]]]; discriminate.
Defined.

(** * Further properties *)

(** ** The frontmatter without a [paths:] key, and after its end *)

Lemma collect_paths_no_key (lines paths : list string) :
  (forall line, In line lines -> Str.strip line <> "paths:") ->
  collect_paths false lines paths = paths.
Proof.
  induction lines as [|line lines IH]; intros Hkey; [reflexivity|].
  cbn [collect_paths].
  destruct (Str.strip line =? DELIM); [reflexivity|].
  destruct (String.eqb_spec (Str.strip line) "paths:") as [E|_];
    [now apply Hkey in E; [|left]|].
  cbn [andb]. apply IH. intros l Hl. apply Hkey. now right.
Qed.

Lemma no_key_no_patterns (content : string) :
  (forall line, In line (Str.split_nl content) -> Str.strip line <> "paths:") ->
  parse_frontmatter_paths content = [].
Proof.
  intros Hkey. unfold parse_frontmatter_paths.
  destruct (Str.split_nl content) as [|first rest]; [reflexivity|].
  destruct (negb (Str.strip first =? DELIM)); [reflexivity|].
  apply collect_paths_no_key. intros l Hl. apply Hkey. now right.
Qed.

Lemma filter_none {A : Type} (f : A -> bool) (l : list A) :
  (forall x, In x l -> f x = false) -> filter f l = [].
Proof.
  induction l as [|x l IH]; intros H; [reflexivity|].
  cbn [filter]. rewrite (H x (or_introl eq_refl)).
  apply IH. intros y Hy. apply H. now right.
Qed.

(** X1.  A directory whose documents have no line that strips to
    [paths:] yields no pattern and no match, whatever the changed files. *)
Theorem no_paths_key_never_matches :
  forall (changed_files : list string) (rules_dir : directory),
    (forall f line, In f rules_dir -> In line (Str.split_nl (snd f)) ->
                    Str.strip line <> "paths:") ->
    (forall f, In f rules_dir -> parse_frontmatter_paths (snd f) = [])
    /\ match_rules changed_files rules_dir = Ok [].
Proof.
  intros changed_files rules_dir Hkey.
  assert (Hnone : forall f, In f rules_dir ->
                            parse_frontmatter_paths (snd f) = [])
    by (intros f Hf; apply no_key_no_patterns; intros l Hl;
        now apply (Hkey f)).
  split; [exact Hnone|].
  unfold match_rules. rewrite match_loop_filter. cbn [app]. f_equal.
  replace (filter (included changed_files) (sorted (glob_md rules_dir)))
    with (@nil rule_file); [reflexivity|].
  symmetry. apply filter_none. intros f Hf.
  apply (proj1 (sorted_In _ _)) in Hf. apply filter_In in Hf as [Hf _].
  unfold included. now rewrite (Hnone f Hf).
Qed.

Lemma no_paths_key_never_matches_witness :
  parse_frontmatter_paths (Str.join nl ["---"; "name: x"; "---"; "- a"]) = []
  /\ match_rules ["a"]
       [("rules/x.md", Str.join nl ["---"; "name: x"; "---"; "- a"])]
     = Ok [].
Proof.
  destruct (no_paths_key_never_matches ["a"]
              [("rules/x.md", Str.join nl ["---"; "name: x"; "---"; "- a"])])
    as [Hnone Hmatch].
  - intros f line [<-|[]] Hl. vm_compute in Hl.
    repeat (destruct Hl as [<-|Hl]; [discriminate|]). destruct Hl.
  - split; [|exact Hmatch].
    apply (Hnone ("rules/x.md", _)). left. reflexivity.
Defined.

Lemma collect_paths_close (close : string) (after after' : list string) :
  Str.strip close = DELIM ->
  forall before in_paths paths,
    collect_paths in_paths (before ++ close :: after) paths
    = collect_paths in_paths (before ++ close :: after') paths.
Proof.
  intros Hclose. induction before as [|line before IH]; intros b paths.
  - cbn [app collect_paths]. now rewrite Hclose.
  - cbn [app collect_paths].
    destruct (Str.strip line =? DELIM); [reflexivity|].
    destruct (Str.strip line =? "paths:"); [apply IH|].
    destruct (b && Str.startswith "- " (Str.strip line)); [apply IH|].
    destruct (b && negb (Str.strip line =? "")
              && negb (Str.startswith "- " (Str.strip line)));
      [reflexivity | apply IH].
Qed.

(** X2.  What follows a line that strips to [---] after the first line
    never changes the patterns: two documents that agree up to such a
    line declare the same patterns. *)
Theorem patterns_end_at_delimiter :
  forall (content content' first close : string)
         (before after after' : list string),
    Str.split_nl content = first :: before ++ close :: after ->
    Str.split_nl content' = first :: before ++ close :: after' ->
    Str.strip close = DELIM ->
    parse_frontmatter_paths content = parse_frontmatter_paths content'.
Proof.
  intros content content' first close before after after' Hs Hs' Hclose.
  unfold parse_frontmatter_paths. rewrite Hs, Hs'.
  destruct (negb (Str.strip first =? DELIM)); [reflexivity|].
  now apply collect_paths_close.
Qed.

Lemma patterns_end_at_delimiter_witness :
  parse_frontmatter_paths
    (Str.join nl ["---"; "paths:"; "- a"; "---"; "paths:"; "- b"])
  = parse_frontmatter_paths (Str.join nl ["---"; "paths:"; "- a"; "---"]).
Proof.
  apply (patterns_end_at_delimiter _ _ "---" "---" ["paths:"; "- a"]
           ["paths:"; "- b"] []); reflexivity.
Defined.

(** ** The body is the end of the document *)

Lemma join_skipn_suffix (n : nat) :
  forall lines : list string,
  exists pre, Str.join nl lines = pre ++ Str.join nl (skipn n lines).
Proof.
  induction n as [|n IH]; intros lines; [now exists ""|].
  destruct lines as [|x lines]; [now exists ""|].
  cbn [skipn]. destruct (IH lines) as [pre Hpre].
  destruct lines as [|y lines].
  - exists x. rewrite skipn_nil. simpl. now rewrite append_nil_r.
  - exists (x ++ nl ++ pre). rewrite join_cons, Hpre.
    now rewrite !append_assoc.
Qed.

Lemma find_close_suffix (lines : list string) :
  forall todo i body,
    find_close lines i todo = Some body ->
    exists pre, Str.join nl lines = pre ++ body.
Proof.
  induction todo as [|line todo IH]; intros i body H; [discriminate H|].
  cbn [find_close] in H.
  destruct (Str.strip line =? DELIM); [|now apply (IH (S i))].
  injection H as <-.
  destruct (join_skipn_suffix (i + 1) lines) as [pre Hpre].
  destruct (lstrip_by_split (fun c => Str.mem c nl)
              (Str.join nl (skipn (i + 1) lines))) as [pre' [Hl _]].
  exists (pre ++ pre'). rewrite Hpre, append_assoc.
  f_equal. exact Hl.
Qed.

(** X3.  [strip_frontmatter] only removes text from the front: the body
    it returns is an end piece of the document, for every document. *)
Theorem strip_frontmatter_suffix :
  forall content : string,
  exists pre, content = pre ++ strip_frontmatter content.
Proof.
  intros content. unfold strip_frontmatter.
  destruct (Str.split_nl content) as [|first rest] eqn:Hsplit;
    [now exists ""|].
  destruct (negb (Str.strip first =? DELIM)); [now exists ""|].
  destruct (find_close (first :: rest) 1 rest) as [body|] eqn:Hfind;
    [|now exists ""].
  destruct (find_close_suffix _ _ _ _ Hfind) as [pre Hpre].
  exists pre. now rewrite <- Hpre, <- Hsplit, join_split_nl.
Qed.

(** ** Writing a frontmatter and reading it back *)

Lemma split_nl_app_line (a b : string) :
  Str.mem LF a = false ->
  Str.split_nl (a ++ nl ++ b) = a :: Str.split_nl b.
Proof.
  unfold Str.split_nl. induction a as [|c a IH]; intros Ha.
  - cbn [append nl Str.split_nl_aux]. rewrite Ascii.eqb_refl.
    now destruct (Str.split_nl_aux b).
  - cbn [Str.mem] in Ha. apply orb_false_elim in Ha as [Hc Ha].
    rewrite Ascii.eqb_sym in Hc.
    cbn [append Str.split_nl_aux]. rewrite Hc.
    specialize (IH Ha).
    destruct (Str.split_nl_aux (a ++ nl ++ b)) as [first others].
    now injection IH as -> ->.
Qed.

Lemma split_nl_join (x : string) (lines : list string) (b : string) :
  (forall l, In l (x :: lines) -> Str.mem LF l = false) ->
  Str.split_nl (Str.join nl (x :: lines) ++ nl ++ b)
  = (x :: lines ++ Str.split_nl b)%list.
Proof.
  revert x; induction lines as [|y lines IH]; intros x Hlf.
  - cbn [Str.join app]. apply split_nl_app_line. apply Hlf. now left.
  - rewrite join_cons, !append_assoc.
    rewrite split_nl_app_line by (apply Hlf; now left).
    cbn [app]. f_equal. apply IH.
    intros l Hl. apply Hlf. now right.
Qed.

Lemma last_char_snoc (s : string) (c : ascii) :
  last_char (s ++ String c "") = Some c.
Proof.
  induction s as [|x s IH]; [reflexivity|].
  cbn [append last_char]. rewrite IH. now destruct s.
Qed.

Lemma strip_item_line (p : string) :
  Str.strip (item_line p) = "- " ++ String DQUOTE (p ++ String DQUOTE "").
Proof.
  unfold Str.strip, Str.strip_by, item_line.
  change (Str.lstrip_by Str.isspace
            ("  - " ++ String DQUOTE (p ++ String DQUOTE "")))
    with ("- " ++ String DQUOTE (p ++ String DQUOTE "")).
  apply rstrip_by_clean.
  change ("- " ++ String DQUOTE (p ++ String DQUOTE ""))
    with (String "-" (String " " (String DQUOTE p)) ++ String DQUOTE "").
  now rewrite last_char_snoc.
Qed.

Lemma item_pattern_quoted (p : string) :
  plain_pattern p = true ->
  item_pattern ("- " ++ String DQUOTE (p ++ String DQUOTE "")) = p.
Proof.
  unfold plain_pattern. intros H.
  apply andb_prop in H as [H Hsq]. apply andb_prop in H as [_ Hdq].
  unfold item_pattern. cbn [append Str.drop].
  assert (Hstrip : Str.strip (String DQUOTE (p ++ String DQUOTE ""))
                   = String DQUOTE (p ++ String DQUOTE "")).
  { unfold Str.strip, Str.strip_by.
    change (Str.lstrip_by Str.isspace (String DQUOTE (p ++ String DQUOTE "")))
      with (String DQUOTE (p ++ String DQUOTE "")).
    apply rstrip_by_clean.
    change (String DQUOTE (p ++ String DQUOTE ""))
      with (String DQUOTE p ++ String DQUOTE "").
    now rewrite last_char_snoc. }
  rewrite Hstrip. unfold Str.strip_chars.
  assert (Hq : Str.strip_by (fun c => Str.mem c (String DQUOTE ""))
                 (String DQUOTE (p ++ String DQUOTE "")) = p).
  { symmetry. apply trimmed_of_strip_by.
    exists (String DQUOTE ""), (String DQUOTE "").
    split; [reflexivity|]. split; [reflexivity|].
    split; [reflexivity | exact Hdq]. }
  rewrite Hq. symmetry. apply trimmed_of_strip_by.
  exists "", "". cbn [append]. rewrite append_nil_r.
  split; [reflexivity|]. split; [reflexivity|].
  split; [reflexivity | exact Hsq].
Qed.

Lemma collect_item_lines (rest : list string) :
  forall (ps paths : list string),
    forallb plain_pattern ps = true ->
    collect_paths true (map item_line ps ++ "---" :: rest) paths
    = (paths ++ ps)%list.
Proof.
  induction ps as [|p ps IH]; intros paths Hps.
  - cbn [map app collect_paths]. now rewrite app_nil_r.
  - cbn [forallb] in Hps. apply andb_prop in Hps as [Hp Hps].
    cbn [map app collect_paths]. rewrite strip_item_line.
    assert (Hstart : Str.startswith "- "
                       ("- " ++ String DQUOTE (p ++ String DQUOTE ""))
                     = true) by reflexivity.
    destruct (list_item_not_marker _ Hstart) as [Hd Hk].
    rewrite Hd, Hk, Hstart. cbn [andb].
    rewrite item_pattern_quoted by exact Hp.
    rewrite IH by exact Hps. now rewrite <- app_assoc.
Qed.

Lemma frontmatter_doc_lines (ps : list string) (body : string) :
  forallb plain_pattern ps = true ->
  Str.split_nl (frontmatter_doc ps body)
  = ("---" :: ("paths:" :: map item_line ps) ++ "---" :: Str.split_nl body)%list.
Proof.
  intros Hps. unfold frontmatter_doc. rewrite split_nl_join.
  - cbn [app]. now rewrite <- app_assoc.
  - intros l [<-|[<-|Hl]]; try reflexivity.
    apply in_app_or in Hl as [Hl|[<-|[]]]; [|reflexivity].
    apply in_map_iff in Hl as [p [<- Hp]].
    apply (proj1 (forallb_forall _ _) Hps) in Hp.
    unfold plain_pattern in Hp.
    apply andb_prop in Hp as [Hp _]. apply andb_prop in Hp as [Hp _].
    apply negb_true_iff in Hp. unfold item_line.
    change ("  - " ++ String DQUOTE (p ++ String DQUOTE ""))
      with (String " " (String " " (String "-" (String " "
             (String DQUOTE (p ++ String DQUOTE "")))))).
    cbn [Str.mem]. rewrite mem_app, Hp. reflexivity.
Qed.

(** X4.  A document written in the format of the docstring reads back:
    for patterns without line feeds and without a quote at either end,
    [parse_frontmatter_paths] returns the patterns in their order and
    [strip_frontmatter] returns the body without its leading line feeds. *)
Theorem frontmatter_round_trip :
  forall (ps : list string) (body : string),
    forallb plain_pattern ps = true ->
    parse_frontmatter_paths (frontmatter_doc ps body) = ps
    /\ strip_frontmatter (frontmatter_doc ps body)
       = Str.lstrip_chars nl body.
Proof.
  intros ps body Hps. split.
  - unfold parse_frontmatter_paths.
    rewrite frontmatter_doc_lines by exact Hps.
    cbn [app collect_paths negb].
    change (Str.strip "---" =? DELIM) with true.
    change (Str.strip "paths:" =? DELIM) with false.
    change (Str.strip "paths:" =? "paths:") with true.
    cbn [negb]. now rewrite collect_item_lines.
  - unfold strip_frontmatter.
    rewrite frontmatter_doc_lines by exact Hps.
    change (Str.strip "---" =? DELIM) with true. cbn [negb].
    pose proof (find_close_hit "---" (Str.split_nl body) eq_refl
                  ("paths:" :: map item_line ps) ["---"]) as Hfound.
    cbn [app List.length] in Hfound |- *. rewrite Hfound.
    + now rewrite join_split_nl.
    + intros l [<-|Hl]; [discriminate|].
      apply in_map_iff in Hl as [p [<- _]]. rewrite strip_item_line.
      discriminate.
Qed.

Lemma frontmatter_round_trip_witness :
  parse_frontmatter_paths
    (frontmatter_doc ["src/**/*.go"; "docs/*.md"] "Go rules")
  = ["src/**/*.go"; "docs/*.md"]
  /\ strip_frontmatter
       (frontmatter_doc ["src/**/*.go"; "docs/*.md"] "Go rules")
     = Str.lstrip_chars nl "Go rules".
Proof.
  apply (frontmatter_round_trip ["src/**/*.go"; "docs/*.md"] "Go rules").
  reflexivity.
Defined.

(** ** The result of [match_rules] *)

Lemma compare_le_trans (s1 : string) :
  forall s2 s3 : string,
    (s1 ?= s2) <> Gt -> (s2 ?= s3) <> Gt -> (s1 ?= s3) <> Gt.
Proof.
  induction s1 as [|c1 s1 IH]; intros [|c2 s2] [|c3 s3];
    cbn [String.compare]; try congruence.
  unfold Ascii.compare.
  destruct (N.compare_spec (N_of_ascii c1) (N_of_ascii c2));
    destruct (N.compare_spec (N_of_ascii c2) (N_of_ascii c3));
    destruct (N.compare_spec (N_of_ascii c1) (N_of_ascii c3));
    try congruence; try lia.
  apply IH.
Qed.

Lemma leb_trans (s1 s2 s3 : string) :
  (s1 <=? s2) = true -> (s2 <=? s3) = true -> (s1 <=? s3) = true.
Proof.
  unfold String.leb. intros H12 H23.
  pose proof (compare_le_trans s1 s2 s3) as H.
  destruct (s1 ?= s2); destruct (s2 ?= s3); destruct (s1 ?= s3);
    try reflexivity; try discriminate; exfalso; apply H; congruence.
Qed.

Lemma insert_sorted_sorted (f : rule_file) (l : list rule_file) :
  StronglySorted path_le l -> StronglySorted path_le (insert_sorted f l).
Proof.
  induction l as [|g l IH]; intros Hl; cbn [insert_sorted].
  - repeat constructor.
  - apply StronglySorted_inv in Hl as [Hl Hg].
    destruct (fst f <=? fst g) eqn:Hfg.
    + apply SSorted_cons; [now apply SSorted_cons|].
      constructor; [exact Hfg|].
      apply Forall_forall. intros x Hx.
      apply (proj1 (Forall_forall _ _) Hg) in Hx.
      exact (leb_trans _ _ _ Hfg Hx).
    + apply SSorted_cons; [now apply IH|].
      apply Forall_forall. intros x Hx.
      apply insert_sorted_In in Hx as [->|Hx].
      * destruct (String.leb_total (fst f) (fst g)) as [H|H];
          [congruence | exact H].
      * exact (proj1 (Forall_forall _ _) Hg x Hx).
Qed.

Lemma sorted_sorted (l : list rule_file) : StronglySorted path_le (sorted l).
Proof.
  induction l as [|f l IH]; [constructor|].
  now apply insert_sorted_sorted.
Qed.

Lemma filter_sorted (p : rule_file -> bool) (l : list rule_file) :
  StronglySorted path_le l -> StronglySorted path_le (filter p l).
Proof.
  induction l as [|f l IH]; intros Hl; [constructor|].
  apply StronglySorted_inv in Hl as [Hl Hf]. cbn [filter].
  destruct (p f); [|now apply IH].
  apply SSorted_cons; [now apply IH|].
  apply Forall_forall. intros x Hx. apply filter_In in Hx as [Hx _].
  exact (proj1 (Forall_forall _ _) Hf x Hx).
Qed.

Lemma entries_sorted (l : list rule_file) :
  StronglySorted path_le l -> StronglySorted path_le (map entry l).
Proof.
  induction l as [|f l IH]; intros Hl; [constructor|].
  apply StronglySorted_inv in Hl as [Hl Hf]. cbn [map].
  apply SSorted_cons; [now apply IH|].
  apply Forall_forall. intros x Hx.
  apply in_map_iff in Hx as [g [<- Hg]].
  exact (proj1 (Forall_forall _ _) Hf g Hg).
Qed.

(** X5.  A list that [match_rules] returns is in ascending order of
    path, and every entry of it is the path of a file of the directory
    that ends in [.md] and declares a pattern, with that file's stripped
    body. *)
Theorem match_rules_sorted_entries :
  forall (changed_files : list string) (rules_dir : directory)
         (matched : list (string * string)),
    match_rules changed_files rules_dir = Ok matched ->
    StronglySorted path_le matched
    /\ forall path body,
         In (path, body) matched ->
         Str.endswith ".md" path = true
         /\ exists content,
              In (path, content) rules_dir
              /\ body = strip_frontmatter content
              /\ parse_frontmatter_paths content <> [].
Proof.
  intros changed_files rules_dir matched Hrun.
  unfold match_rules in Hrun. rewrite match_loop_filter in Hrun.
  cbn [app] in Hrun. injection Hrun as <-. split.
  - apply entries_sorted, filter_sorted, sorted_sorted.
  - intros path body Hin.
    apply in_map_iff in Hin as [[p c] [He Hf]].
    unfold entry in He. cbn [fst snd] in He. injection He as -> <-.
    apply filter_In in Hf as [Hs Hinc].
    apply (proj1 (sorted_In _ _)) in Hs.
    apply filter_In in Hs as [Hd Hmd]. cbn [fst] in Hmd.
    split; [exact Hmd|]. exists c. split; [exact Hd|].
    split; [reflexivity|].
    unfold included in Hinc. cbn [snd] in Hinc.
    intros E. rewrite E in Hinc. discriminate Hinc.
Qed.

Lemma match_rules_sorted_entries_witness :
  StronglySorted path_le
    [("rules/doc.md", "Doc rules"); ("rules/go.md", "Go rules")]
  /\ forall path body,
       In (path, body)
          [("rules/doc.md", "Doc rules"); ("rules/go.md", "Go rules")] ->
       Str.endswith ".md" path = true
       /\ exists content,
            In (path, content)
               [("rules/go.md", go_rule); ("notes.txt", go_rule);
                ("rules/doc.md", doc_rule)]
            /\ body = strip_frontmatter content
            /\ parse_frontmatter_paths content <> [].
Proof.
  apply (match_rules_sorted_entries
           ["src/pkg/foo.go"; "docs/a.md"]
           [("rules/go.md", go_rule); ("notes.txt", go_rule);
            ("rules/doc.md", doc_rule)]).
  vm_compute. reflexivity.
Defined.

(** X6.  Without changed files no rule matches, whatever the directory
    holds. *)
Theorem match_rules_no_changed_files :
  forall rules_dir : directory, match_rules [] rules_dir = Ok [].
Proof.
  intros rules_dir. unfold match_rules. rewrite match_loop_filter.
  cbn [app]. f_equal.
  rewrite filter_none; [reflexivity|].
  intros f _. unfold included.
  induction (parse_frontmatter_paths (snd f)) as [|p ps IH];
    [reflexivity | exact IH].
Qed.

Lemma existsb_same_elements {A : Type} (p : A -> bool) (l l' : list A) :
  (forall x, In x l <-> In x l') -> existsb p l = existsb p l'.
Proof.
  intros Hsame. apply eq_true_iff_eq. rewrite !existsb_exists.
  split; intros [x [Hx Hp]]; exists x; split; auto; now apply Hsame.
Qed.

(** X7.  The result of [match_rules] depends on the changed files only
    through which paths occur: order and repetitions do not matter. *)
Theorem match_rules_changed_files_as_set :
  forall (changed_files changed_files' : list string) (rules_dir : directory),
    (forall f, In f changed_files <-> In f changed_files') ->
    match_rules changed_files rules_dir
    = match_rules changed_files' rules_dir.
Proof.
  intros files files' rules_dir Hsame.
  unfold match_rules. rewrite !match_loop_filter. do 3 f_equal.
  apply filter_ext. intros f. unfold included.
  induction (parse_frontmatter_paths (snd f)) as [|p ps IH];
    [reflexivity|].
  cbn [existsb]. rewrite IH.
  now rewrite (existsb_same_elements _ files files' Hsame).
Qed.

Lemma match_rules_changed_files_as_set_witness :
  match_rules ["README.md"; "src/pkg/foo.go"; "README.md"]
              [("rules/go.md", go_rule); ("rules/doc.md", doc_rule)]
  = match_rules ["src/pkg/foo.go"; "README.md"]
                [("rules/go.md", go_rule); ("rules/doc.md", doc_rule)].
Proof.
  apply (match_rules_changed_files_as_set
           ["README.md"; "src/pkg/foo.go"; "README.md"]
           ["src/pkg/foo.go"; "README.md"]).
  intros f. simpl. tauto.
Defined.

Lemma existsb_more {A : Type} (p : A -> bool) (l l' : list A) :
  (forall x, In x l -> In x l') -> existsb p l = true -> existsb p l' = true.
Proof.
  intros Hsub H. apply existsb_exists in H as [x [Hx Hp]].
  apply existsb_exists. exists x. auto.
Qed.

(** X18.  More changed files never lose a match: every entry of the
    result for a list of changed files is in the result for any list
    that holds at least the same files. *)
Theorem match_rules_monotone :
  forall (changed_files changed_files' : list string) (rules_dir : directory)
         (matched matched' : list (string * string)),
    (forall f, In f changed_files -> In f changed_files') ->
    match_rules changed_files rules_dir = Ok matched ->
    match_rules changed_files' rules_dir = Ok matched' ->
    forall e, In e matched -> In e matched'.
Proof.
  intros files files' rules_dir matched matched' Hsub H H' e He.
  unfold match_rules in H, H'. rewrite match_loop_filter in H, H'.
  cbn [app] in H, H'. injection H as <-. injection H' as <-.
  apply in_map_iff in He as [f [<- Hf]]. apply in_map.
  apply filter_In in Hf as [Hf Hinc]. apply filter_In. split; [exact Hf|].
  unfold included in Hinc |- *.
  apply existsb_exists in Hinc as [p [Hp Hacc]].
  apply existsb_exists. exists p. split; [exact Hp|].
  exact (existsb_more _ files files' Hsub Hacc).
Qed.

Lemma match_rules_monotone_witness :
  In ("rules/go.md", "Go rules")
     [("rules/doc.md", "Doc rules"); ("rules/go.md", "Go rules")].
Proof.
  apply (match_rules_monotone
           ["src/pkg/foo.go"] ["src/pkg/foo.go"; "docs/a.md"]
           [("rules/go.md", go_rule); ("rules/doc.md", doc_rule)]
           [("rules/go.md", "Go rules")]).
  - intros f [<-|[]]. left. reflexivity.
  - vm_compute. reflexivity.
  - vm_compute. reflexivity.
  - left. reflexivity.
Defined.

(** ** What the matcher of a pattern accepts *)

Lemma app_eq_empty (s1 s2 : string) :
  (s1 ++ s2 =? "") = (s1 =? "") && (s2 =? "").
Proof. destruct s1; [now destruct s2 | reflexivity]. Qed.

Lemma all_any_no_lf (s : string) :
  all_of (Re.accepts Re.AnyChar) s = negb (Str.mem LF s).
Proof.
  induction s as [|c s IH]; [reflexivity|].
  cbn [all_of Str.mem Re.accepts]. rewrite IH, (Ascii.eqb_sym LF c).
  now destruct (Ascii.eqb c LF).
Qed.

Lemma all_segment_no_slash (s : string) :
  all_of (Re.accepts (Re.NotLiteral "/")) s = negb (Str.mem "/" s).
Proof.
  induction s as [|c s IH]; [reflexivity|].
  cbn [all_of Str.mem Re.accepts]. rewrite IH, (Ascii.eqb_sym "/" c).
  now destruct (Ascii.eqb c "/").
Qed.

Lemma star_iff (k : bool -> string -> bool) (cs : Re.charset) (s : string) :
  forall b,
    Re.star k cs b s = true
    <-> exists s1 s2,
          s = s1 ++ s2 /\ all_of (Re.accepts cs) s1 = true
          /\ k (b && (s1 =? "")) s2 = true.
Proof.
  induction s as [|c s IH]; intros b; cbn [Re.star].
  - split.
    + intros H. exists "", "". now rewrite andb_true_r.
    + intros [s1 [s2 [Hs [_ Hk]]]].
      destruct s1; [|discriminate Hs]. destruct s2; [|discriminate Hs].
      now rewrite andb_true_r in Hk.
  - split.
    + intros H. apply orb_prop in H as [H|H].
      * apply andb_prop in H as [Hc H].
        apply IH in H as [s1 [s2 [-> [Hall Hk]]]].
        exists (String c s1), s2. cbn [all_of]. rewrite Hc, Hall.
        now rewrite andb_false_r.
      * exists "", (String c s). now rewrite andb_true_r.
    + intros [s1 [s2 [Hs [Hall Hk]]]]. destruct s1 as [|x s1].
      * cbn [append] in Hs. subst s2. rewrite andb_true_r in Hk.
        rewrite Hk. apply orb_true_r.
      * cbn [append] in Hs. injection Hs as <- ->.
        cbn [all_of] in Hall. apply andb_prop in Hall as [Hc Hall].
        rewrite andb_false_r in Hk. rewrite Hc.
        assert (Hstar : Re.star k cs false (s1 ++ s2) = true)
          by (apply IH; exists s1, s2; auto).
        now rewrite Hstar.
Qed.

Lemma token_iff (t : token) (k : bool -> string -> bool) (b : bool)
      (s : string) :
  Re.run (token_regex t) k b s = true
  <-> exists s1 s2,
        s = s1 ++ s2 /\ spells_token t s1 /\ k (b && (s1 =? "")) s2 = true.
Proof.
  destruct t as [| | | |c|c]; cbn [token_regex spells_token Re.seq fold_right];
    cbn [Re.run].
  - (* **/ *)
    split.
    + intros H. apply orb_prop in H as [H|H].
      * destruct s as [|x s]; [discriminate H|].
        apply andb_prop in H as [Hx H].
        apply star_iff in H as [s1 [s2 [-> [Hall Hk]]]].
        destruct s2 as [|y s2]; [discriminate Hk|].
        apply andb_prop in Hk as [Hy Hk].
        cbn [Re.accepts] in Hy. apply Ascii.eqb_eq in Hy. subst y.
        exists (String x s1 ++ "/"), s2. split.
        { cbn [append]. now rewrite append_assoc. }
        split.
        { right. exists x, s1. split; [reflexivity|].
          cbn [Str.mem]. cbn [Re.accepts] in Hx.
          rewrite all_any_no_lf in Hall.
          apply negb_true_iff in Hx, Hall.
          now rewrite (Ascii.eqb_sym LF x), Hx, Hall. }
        now rewrite andb_false_r.
      * exists "", s. split; [reflexivity|]. split; [now left|].
        now rewrite andb_true_r.
    + intros [s1 [s2 [-> [[->|[x [d [-> Hlf]]]] Hk]]]].
      * cbn [append]. rewrite andb_true_r in Hk. rewrite Hk.
        apply orb_true_r.
      * cbn [append]. rewrite andb_false_r in Hk.
        cbn [Str.mem] in Hlf. apply orb_false_elim in Hlf as [Hx Hd].
        rewrite Ascii.eqb_sym in Hx. cbn [Re.accepts]. rewrite Hx.
        cbn [negb andb].
        rewrite append_assoc.
        match goal with
        | |- Re.star ?k0 _ _ _ || _ = true =>
            assert (Hstar : Re.star k0 Re.AnyChar false (d ++ "/" ++ s2)
                            = true)
        end.
        { apply star_iff. exists d, ("/" ++ s2). split; [reflexivity|].
          split; [now rewrite all_any_no_lf, Hd|]. exact Hk. }
        now rewrite Hstar.
  - (* ** *)
    rewrite star_iff. split; intros [s1 [s2 [Hs [H Hk]]]]; exists s1, s2;
      rewrite all_any_no_lf in *.
    + now apply negb_true_iff in H.
    + now rewrite H.
  - (* * *)
    rewrite star_iff. split; intros [s1 [s2 [Hs [H Hk]]]]; exists s1, s2;
      rewrite all_segment_no_slash in *.
    + now apply negb_true_iff in H.
    + now rewrite H.
  - (* ? *)
    split.
    + destruct s as [|x s]; [discriminate|]. intros H.
      apply andb_prop in H as [Hx H]. cbn [Re.accepts] in Hx.
      apply negb_true_iff, Ascii.eqb_neq in Hx.
      exists (String x ""), s. split; [reflexivity|].
      split; [now exists x|]. now rewrite andb_false_r.
    + intros [s1 [s2 [-> [[x [-> Hx]] Hk]]]].
      cbn [append Re.accepts]. apply Ascii.eqb_neq in Hx. rewrite Hx.
      now rewrite andb_false_r in Hk.
  - (* an escaped character *)
    split.
    + destruct s as [|x s]; [discriminate|]. intros H.
      apply andb_prop in H as [Hx H]. cbn [Re.accepts] in Hx.
      apply Ascii.eqb_eq in Hx. subst x.
      exists (String c ""), s. now rewrite andb_false_r.
    + intros [s1 [s2 [-> [-> Hk]]]].
      cbn [append Re.accepts]. rewrite Ascii.eqb_refl.
      now rewrite andb_false_r in Hk.
  - (* a literal character *)
    split.
    + destruct s as [|x s]; [discriminate|]. intros H.
      apply andb_prop in H as [Hx H]. cbn [Re.accepts] in Hx.
      apply Ascii.eqb_eq in Hx. subst x.
      exists (String c ""), s. now rewrite andb_false_r.
    + intros [s1 [s2 [-> [-> Hk]]]].
      cbn [append Re.accepts]. rewrite Ascii.eqb_refl.
      now rewrite andb_false_r in Hk.
Qed.

Lemma tokens_iff (toks : list token) :
  forall (k : bool -> string -> bool) (b : bool) (s : string),
    Re.run (Re.seq (map token_regex toks)) k b s = true
    <-> exists s1 s2,
          s = s1 ++ s2 /\ spells toks s1 /\ k (b && (s1 =? "")) s2 = true.
Proof.
  induction toks as [|t toks IH]; intros k b s.
  - cbn [map Re.seq fold_right Re.run spells]. split.
    + intros H. exists "", s. now rewrite andb_true_r.
    + intros [s1 [s2 [-> [-> Hk]]]]. now rewrite andb_true_r in Hk.
  - cbn [map Re.seq fold_right Re.run spells].
    fold (Re.seq (map token_regex toks)). rewrite token_iff. split.
    + intros [s1 [s2 [-> [Ht H]]]].
      apply IH in H as [s3 [s4 [-> [Htoks Hk]]]].
      exists (s1 ++ s3), s4. split; [now rewrite append_assoc|].
      split; [now exists s1, s3|].
      now rewrite app_eq_empty, andb_assoc.
    + intros [s0 [s4 [-> [[s1 [s3 [-> [Ht Htoks]]]] Hk]]]].
      exists s1, (s3 ++ s4). split; [now rewrite append_assoc|].
      split; [exact Ht|]. apply IH. exists s3, s4.
      split; [reflexivity|]. split; [exact Htoks|].
      now rewrite app_eq_empty, andb_assoc in Hk.
Qed.

Lemma at_end_iff (s : string) : Re.at_end s = true <-> s = "" \/ s = nl.
Proof.
  destruct s as [|c [|d s]]; cbn [Re.at_end]; unfold nl.
  - intuition.
  - rewrite Ascii.eqb_eq. intuition congruence.
  - intuition discriminate.
Qed.

Lemma glob_match_spelled (P F : string) :
  glob_match P F = Ok true
  <-> exists s, spells (tokens P) s /\ (F = s \/ F = s ++ nl).
Proof.
  rewrite glob_match_accepts. unfold glob_accepts.
  split.
  - intros H. injection H as H.
    apply tokens_iff in H as [s1 [s2 [-> [Hs Hend]]]].
    exists s1. split; [exact Hs|].
    apply at_end_iff in Hend as [->| ->];
      [left; now rewrite append_nil_r | now right].
  - intros [s [Hs HF]]. f_equal. apply tokens_iff.
    destruct HF as [->| ->].
    + exists s, "". now rewrite append_nil_r.
    + exists s, nl. auto.
Qed.

(** X8.  The matcher of a pattern accepts a candidate exactly when the
    candidate, or the candidate without one final line feed, is spelled
    token by token by the pattern: nothing or some characters other than
    line feeds and then [/] for [**/], no line feed for [**], no [/] for
    [*], one character other than [/] for [?], and the character itself
    for every other character.  It rejects every other candidate. *)
Theorem glob_match_spells :
  forall P F : string,
    (glob_match P F = Ok true
     <-> exists s, spells (tokens P) s /\ (F = s \/ F = s ++ nl))
    /\ (glob_match P F = Ok false
        <-> ~ exists s, spells (tokens P) s /\ (F = s \/ F = s ++ nl)).
Proof.
  intros P F. split; [apply glob_match_spelled|].
  rewrite <- glob_match_spelled, glob_match_accepts.
  destruct (glob_accepts P F); split; intros H.
  - discriminate H.
  - exfalso. now apply H.
  - intros E. discriminate E.
  - reflexivity.
Qed.

(** ** Consequences for the separate wildcards *)

Lemma count_char_app (c : ascii) (s1 s2 : string) :
  count_char c (s1 ++ s2) = count_char c s1 + count_char c s2.
Proof.
  induction s1 as [|x s1 IH]; [reflexivity|].
  cbn [append count_char]. rewrite IH. lia.
Qed.

Lemma count_char_absent (c : ascii) (s : string) :
  Str.mem c s = false -> count_char c s = 0.
Proof.
  induction s as [|x s IH]; [reflexivity|].
  cbn [Str.mem count_char]. intros H.
  apply orb_false_elim in H as [Hx H].
  rewrite Ascii.eqb_sym in Hx. now rewrite Hx, IH.
Qed.

Lemma spells_slashes (P : string) :
  double_star P = false ->
  forall s, spells (tokens P) s -> count_char "/" s = count_char "/" P.
Proof.
  induction P as [|c rest IH]; intros Hds s Hs.
  - cbn [tokens spells] in Hs. now subst s.
  - assert (Hrest : double_star rest = false).
    { cbn [double_star] in Hds. destruct rest; [reflexivity|].
      now apply orb_false_elim in Hds. }
    cbn [tokens] in Hs. cbn [count_char].
    destruct (Ascii.eqb_spec c "*") as [->|Hstar].
    + assert (Hseg : spells (TSeg :: tokens rest) s).
      { destruct rest as [|c1 rest1]; [exact Hs|].
        cbn [double_star] in Hds. apply orb_false_elim in Hds as [Hc1 _].
        cbn [andb] in Hc1. change (Ascii.eqb "*" "*") with true in Hc1.
        cbn [andb] in Hc1. now rewrite Hc1 in Hs. }
      destruct Hseg as [s1 [s2 [-> [H1 H2]]]]. cbn [spells_token] in H1.
      rewrite count_char_app, (count_char_absent _ _ H1), (IH Hrest s2 H2).
      reflexivity.
    + destruct (Ascii.eqb_spec c "?") as [->|Hq].
      * destruct Hs as [s1 [s2 [-> [[x [-> Hx]] H2]]]].
        cbn [append count_char]. apply Ascii.eqb_neq in Hx.
        now rewrite Hx, (IH Hrest s2 H2).
      * assert (Hlit : exists s2, s = String c s2 /\ spells (tokens rest) s2).
        { destruct (Str.mem c regex_meta);
            destruct Hs as [s1 [s2 [-> [-> H2]]]]; now exists s2. }
        destruct Hlit as [s2 [-> H2]]. cbn [count_char].
        now rewrite (IH Hrest s2 H2).
Qed.

(** X9.  In a pattern without [**], no wildcard crosses a separator: an
    accepted candidate has exactly as many [/] as the pattern. *)
Theorem single_wildcards_keep_depth :
  forall P F : string,
    double_star P = false ->
    glob_match P F = Ok true ->
    count_char "/" F = count_char "/" P.
Proof.
  intros P F Hds H.
  apply glob_match_spelled in H as [s [Hs [->| ->]]].
  - now apply spells_slashes.
  - rewrite count_char_app, (spells_slashes P Hds s Hs). simpl. lia.
Qed.

Lemma single_wildcards_keep_depth_witness :
  count_char "/" "src/pkg/foo_test.go" = count_char "/" "src/*/foo_????.go".
Proof.
  apply (single_wildcards_keep_depth "src/*/foo_????.go"
                                     "src/pkg/foo_test.go");
    reflexivity.
Defined.

Lemma tokens_app_literal (P Q : string) :
  Str.mem "*" P = false -> tokens (P ++ Q) = (tokens P ++ tokens Q)%list.
Proof.
  induction P as [|c P IH]; intros H; [reflexivity|].
  cbn [Str.mem] in H. apply orb_false_elim in H as [Hc H].
  rewrite Ascii.eqb_sym in Hc.
  cbn [append tokens]. rewrite Hc, (IH H).
  destruct (Ascii.eqb c "?"); [reflexivity|].
  now destruct (Str.mem c regex_meta).
Qed.

Lemma spells_app (toks1 toks2 : list token) :
  forall s,
    spells (toks1 ++ toks2) s
    <-> exists s1 s2, s = s1 ++ s2 /\ spells toks1 s1 /\ spells toks2 s2.
Proof.
  induction toks1 as [|t toks1 IH]; intros s; cbn [app spells].
  - split.
    + intros H. now exists "", s.
    + now intros [s1 [s2 [-> [-> H]]]].
  - split.
    + intros [s1 [s2 [-> [Ht H]]]].
      apply IH in H as [s3 [s4 [-> [H3 H4]]]].
      exists (s1 ++ s3), s4. split; [now rewrite append_assoc|].
      split; [now exists s1, s3 | exact H4].
    + intros [s0 [s4 [-> [[s1 [s3 [-> [Ht H3]]]] H4]]]].
      exists s1, (s3 ++ s4). split; [now rewrite append_assoc|].
      split; [exact Ht|]. apply IH. now exists s3, s4.
Qed.

Lemma spells_literal (P : string) :
  Str.mem "*" P = false -> Str.mem "?" P = false ->
  forall s, spells (tokens P) s <-> s = P.
Proof.
  induction P as [|c P IH]; intros Hstar Hq s; [reflexivity|].
  cbn [Str.mem] in Hstar, Hq.
  apply orb_false_elim in Hstar as [Hc1 Hstar].
  apply orb_false_elim in Hq as [Hc2 Hq].
  rewrite Ascii.eqb_sym in Hc1. rewrite Ascii.eqb_sym in Hc2.
  cbn [tokens]. rewrite Hc1, Hc2.
  destruct (Str.mem c regex_meta); cbn [spells spells_token]; split.
  - intros [s1 [s2 [-> [-> H]]]]. apply (IH Hstar Hq) in H. now subst.
  - intros ->. exists (String c ""), P. now rewrite (IH Hstar Hq).
  - intros [s1 [s2 [-> [-> H]]]]. apply (IH Hstar Hq) in H. now subst.
  - intros ->. exists (String c ""), P. now rewrite (IH Hstar Hq).
Qed.

(** X10.  A pattern made of a text without wildcards followed by [**]
    accepts exactly the candidates that start with that text and go on
    without a line feed, except for one that may end the candidate. *)
Theorem prefix_double_star :
  forall P F : string,
    Str.mem "*" P = false -> Str.mem "?" P = false ->
    (glob_match (P ++ "**") F = Ok true
     <-> exists r, Str.mem LF r = false
                   /\ (F = P ++ r \/ F = P ++ r ++ nl)).
Proof.
  intros P F Hstar Hq.
  rewrite glob_match_spelled, (tokens_app_literal P "**" Hstar).
  change (tokens "**") with [TAny]. split.
  - intros [s [Hs HF]].
    apply spells_app in Hs as [s1 [s2 [-> [H1 [r [e [-> [Hr ->]]]]]]]].
    apply (spells_literal P Hstar Hq) in H1. subst s1.
    cbn [spells_token] in Hr. exists r. split; [exact Hr|].
    rewrite append_nil_r in HF.
    destruct HF as [->| ->]; [now left | right; now rewrite append_assoc].
  - intros [r [Hr HF]]. exists (P ++ r). split.
    + apply spells_app. exists P, r. split; [reflexivity|].
      split; [now apply spells_literal|].
      exists r, "". now rewrite append_nil_r.
    + destruct HF as [->| ->]; [now left | right; now rewrite append_assoc].
Qed.

Lemma prefix_double_star_witness :
  glob_match ("src/" ++ "**") "src/pkg/foo.go" = Ok true
  <-> exists r, Str.mem LF r = false
                /\ ("src/pkg/foo.go" = "src/" ++ r
                    \/ "src/pkg/foo.go" = "src/" ++ r ++ nl).
Proof.
  apply (prefix_double_star "src/" "src/pkg/foo.go"); reflexivity.
Defined.

(** X11.  Between two texts without wildcards, a [?] stands for exactly
    one character other than [/]. *)
Theorem question_mark_one_character :
  forall P Q F : string,
    Str.mem "*" P = false -> Str.mem "?" P = false ->
    Str.mem "*" Q = false -> Str.mem "?" Q = false ->
    (glob_match (P ++ "?" ++ Q) F = Ok true
     <-> exists c, c <> "/"%char
                   /\ (F = P ++ String c Q \/ F = P ++ String c Q ++ nl)).
Proof.
  intros P Q F HsP HqP HsQ HqQ.
  rewrite glob_match_spelled, (tokens_app_literal P ("?" ++ Q) HsP).
  change (tokens ("?" ++ Q)) with (TOne :: tokens Q). split.
  - intros [s [Hs HF]].
    apply spells_app in Hs
        as [s1 [s2 [-> [H1 [x [q [-> [[c [-> Hc]] H2]]]]]]]].
    apply (spells_literal P HsP HqP) in H1.
    apply (spells_literal Q HsQ HqQ) in H2. subst s1 q.
    exists c. split; [exact Hc|]. cbn [append] in HF.
    destruct HF as [->| ->]; [now left | right].
    now rewrite append_assoc.
  - intros [c [Hc HF]]. exists (P ++ String c Q). split.
    + apply spells_app. exists P, (String c Q). split; [reflexivity|].
      split; [now apply spells_literal|].
      exists (String c ""), Q. split; [reflexivity|].
      split; [now exists c | now apply spells_literal].
    + destruct HF as [->| ->]; [now left | right].
      now rewrite append_assoc.
Qed.

Lemma question_mark_one_character_witness :
  glob_match ("v" ++ "?" ++ ".txt") "v1.txt" = Ok true
  <-> exists c, c <> "/"%char
                /\ ("v1.txt" = "v" ++ String c ".txt"
                    \/ "v1.txt" = "v" ++ String c ".txt" ++ nl).
Proof.
  apply (question_mark_one_character "v" ".txt" "v1.txt"); reflexivity.
Defined.

(** X12.  A pattern that starts with [**/] accepts what the rest of the
    pattern accepts, and also that after at least one character without
    line feed followed by [/]; it accepts nothing else. *)
Theorem leading_double_star_slash :
  forall Q F : string,
    glob_match ("**/" ++ Q) F = Ok true
    <-> glob_match Q F = Ok true
        \/ exists c d F',
             Str.mem LF (String c d) = false
             /\ F = String c d ++ "/" ++ F'
             /\ glob_match Q F' = Ok true.
Proof.
  intros Q F. rewrite !glob_match_spelled.
  change (tokens ("**/" ++ Q)) with (TDirs :: tokens Q).
  cbn [spells spells_token]. split.
  - intros [s [[s1 [s2 [-> [[->|[c [d [-> Hlf]]]] H2]]]] HF]].
    + left. now exists s2.
    + right. exists c, d.
      destruct HF as [->| ->].
      * exists s2. split; [exact Hlf|].
        split; [now rewrite !append_assoc|].
        apply glob_match_spelled. exists s2. auto.
      * exists (s2 ++ nl). split; [exact Hlf|].
        split; [now rewrite !append_assoc|].
        apply glob_match_spelled. exists s2. auto.
  - intros [[s [Hs HF]]|[c [d [F' [Hlf [-> H]]]]]].
    + exists s. split; [|exact HF]. exists "", s. auto.
    + apply glob_match_spelled in H as [s [Hs HF]].
      exists ((String c d ++ "/") ++ s). split.
      * exists (String c d ++ "/"), s. split; [reflexivity|].
        split; [right; now exists c, d | exact Hs].
      * destruct HF as [->| ->]; [left | right];
          now rewrite !append_assoc.
Qed.

(** ** The changed files that [main] reads *)

Lemma file_lines_shape (text line : string) :
  In line (file_lines text) ->
  exists body, Str.mem LF body = false /\ (line = body \/ line = body ++ nl).
Proof.
  revert line. induction text as [|c text IH]; intros line Hin;
    [destruct Hin|].
  cbn [file_lines] in Hin.
  destruct (Ascii.eqb_spec c LF) as [->|Hc].
  - destruct Hin as [<-|Hin]; [|now apply IH].
    exists "". split; [reflexivity | now right].
  - apply Ascii.eqb_neq in Hc. rewrite Ascii.eqb_sym in Hc.
    destruct (file_lines text) as [|line0 others].
    + destruct Hin as [<-|[]]. exists (String c "").
      cbn [Str.mem]. rewrite Hc. split; [reflexivity | now left].
    + destruct Hin as [<-|Hin]; [|apply IH; now right].
      destruct (IH line0 (or_introl eq_refl)) as [body [Hb Hl]].
      exists (String c body). cbn [Str.mem]. rewrite Hc, Hb.
      split; [reflexivity|]. destruct Hl as [->| ->]; [now left | now right].
Qed.

Lemma all_of_app (p : ascii -> bool) (s1 s2 : string) :
  all_of p (s1 ++ s2) = all_of p s1 && all_of p s2.
Proof.
  induction s1 as [|c s1 IH]; [reflexivity|].
  cbn [append all_of]. now rewrite IH, andb_assoc.
Qed.

Lemma strip_line_end (body : string) :
  Str.strip (body ++ nl) = Str.strip body.
Proof.
  unfold Str.strip. symmetry. apply trimmed_of_strip_by.
  destruct (strip_by_trimmed Str.isspace body)
    as [pre [post [Hb [Hpre [Hpost Hclean]]]]].
  exists pre, (post ++ nl). split.
  - rewrite Hb at 1. now rewrite !append_assoc.
  - split; [exact Hpre|]. split; [|exact Hclean].
    now rewrite all_of_app, Hpost.
Qed.

Lemma strip_no_lf (body : string) :
  Str.mem LF body = false -> Str.mem LF (Str.strip body) = false.
Proof.
  intros Hb.
  destruct (strip_by_trimmed Str.isspace body) as [pre [post [E _]]].
  fold (Str.strip body) in E. rewrite E, !mem_app in Hb.
  apply orb_false_elim in Hb as [_ Hb].
  now apply orb_false_elim in Hb as [Hb _].
Qed.

Lemma strip_stripped (body : string) : Str.strip (Str.strip body) = Str.strip body.
Proof.
  unfold Str.strip at 1. symmetry. apply trimmed_of_strip_by.
  destruct (strip_by_trimmed Str.isspace body) as [_ [_ [_ [_ [_ Hclean]]]]].
  exists "", "". cbn [append]. now rewrite append_nil_r.
Qed.

Lemma read_changed_files_In (text f : string) :
  In f (read_changed_files text) ->
  f <> "" /\ exists body, Str.mem LF body = false /\ f = Str.strip body.
Proof.
  unfold read_changed_files. intros Hin.
  apply in_map_iff in Hin as [line [<- Hline]].
  apply filter_In in Hline as [Hline Hne].
  apply negb_true_iff, String.eqb_neq in Hne. split; [exact Hne|].
  destruct (file_lines_shape text line Hline) as [body [Hb [->| ->]]];
    exists body; split; auto using strip_line_end.
Qed.

(** X13.  Every changed file that [main] reads from its input is not
    empty, holds no line feed and has no whitespace at either end. *)
Theorem changed_files_are_stripped_lines :
  forall text f : string,
    In f (read_changed_files text) ->
    f <> "" /\ Str.mem LF f = false /\ Str.strip f = f.
Proof.
  intros text f Hin.
  destruct (read_changed_files_In text f Hin) as [Hne [body [Hb ->]]].
  split; [exact Hne|]. split; [now apply strip_no_lf|].
  apply strip_stripped.
Qed.

Lemma changed_files_are_stripped_lines_witness :
  "src/a.go" <> "" /\ Str.mem LF "src/a.go" = false
  /\ Str.strip "src/a.go" = "src/a.go".
Proof.
  apply (changed_files_are_stripped_lines
           (Str.join nl ["  src/a.go "; ""; "README.md"; ""]) "src/a.go").
  left. reflexivity.
Defined.

Lemma ends_with_lf (s : string) : Str.mem LF (s ++ nl) = true.
Proof. rewrite mem_app. apply orb_true_r. Qed.

(** X14.  For the changed files that [main] reads, the line feed plays
    no part in matching: a pattern without wildcards accepts such a file
    exactly when the two are equal, and [**] accepts every such file. *)
Theorem read_files_match_exactly :
  forall text f P : string,
    In f (read_changed_files text) ->
    Str.mem "*" P = false -> Str.mem "?" P = false ->
    (glob_match P f = Ok true <-> f = P)
    /\ glob_match "**" f = Ok true.
Proof.
  intros text f P Hin Hstar Hq.
  destruct (read_changed_files_In text f Hin) as [_ [body [Hb ->]]].
  pose proof (strip_no_lf body Hb) as Hlf. split.
  - rewrite glob_match_spelled. split.
    + intros [s [Hs HF]]. apply (spells_literal P Hstar Hq) in Hs. subst s.
      destruct HF as [E|E]; [exact E|].
      rewrite E, ends_with_lf in Hlf. discriminate Hlf.
    + intros E. exists P. split; [now apply spells_literal | now left].
  - rewrite glob_match_accepts. f_equal. unfold glob_accepts.
    change (tokens "**") with [TAny].
    cbn [map token_regex Re.seq fold_right Re.run].
    apply star_any_no_lf; [reflexivity | exact Hlf].
Qed.

Lemma read_files_match_exactly_witness :
  (glob_match "README.md" "README.md" = Ok true <-> "README.md" = "README.md")
  /\ glob_match "**" "README.md" = Ok true.
Proof.
  apply (read_files_match_exactly
           (Str.join nl ["  src/a.go "; ""; "README.md"; ""])
           "README.md" "README.md"); [|reflexivity|reflexivity].
  right. left. reflexivity.
Defined.

(** ** How [main] ends *)

Lemma match_rules_ok (changed_files : list string) (rules_dir : directory) :
  match_rules changed_files rules_dir
  = Ok (map entry (filter (included changed_files)
                          (sorted (glob_md rules_dir)))).
Proof. unfold match_rules. now rewrite match_loop_filter. Qed.

(** X15.  [main] never ends with an uncaught IndexError or re.error,
    and its loops never run out of fuel: [sys.argv[1]] is read only when
    it is there, and every pattern compiles.  With fewer than two
    elements in [sys.argv] it writes the usage line to the error stream,
    nothing to the output, and exits with status 1; with two or more,
    whenever it ends by returning, the status is 0 and the error stream
    is empty.  Nothing is said of the errors of reading, decoding and
    printing. *)
Theorem main_exit_status :
  forall (argv : list string) (open_text : string -> option string)
         (rules_dir : directory),
    (forall e, main argv open_text rules_dir <> Uncaught e)
    /\ main argv open_text rules_dir <> Unfinished
    /\ (List.length argv < 2 ->
        main argv open_text rules_dir
        = Exited {| stdout := ""; stderr := print USAGE; status := 1 |})
    /\ (forall o, 2 <= List.length argv ->
                  main argv open_text rules_dir = Exited o ->
                  status o = 0 /\ stderr o = "").
Proof.
  intros argv open_text rules_dir.
  destruct argv as [|prog [|path rest]].
  - repeat split; try discriminate; try reflexivity;
      cbn [List.length] in *; lia.
  - repeat split; try discriminate; try reflexivity;
      cbn [List.length] in *; lia.
  - unfold main. cbn [List.length Nat.ltb Nat.leb nth_error].
    assert (Hlong : ~ S (S (List.length rest)) < 2) by lia.
    destruct (open_text path) as [text|].
    + destruct (read_changed_files text) as [|f files].
      * unfold no_match. split; [discriminate|]. split; [discriminate|].
        split; [intros H; lia|]. intros o _ H. injection H as <-. now split.
      * rewrite match_rules_ok.
        destruct (map entry _) as [|m matched].
        -- unfold no_match. split; [discriminate|]. split; [discriminate|].
           split; [intros H; lia|]. intros o _ H. injection H as <-.
           now split.
        -- split; [discriminate|]. split; [discriminate|].
           split; [intros H; lia|]. intros o _ H. injection H as <-.
           now split.
    + split; [discriminate|]. split; [discriminate|].
      split; [intros H; lia|]. intros o _ H. discriminate H.
Qed.

Lemma main_exit_status_witness :
  main ["match-rules.py"] (fun _ => None) [("rules/go.md", go_rule)]
  = Exited {| stdout := ""; stderr := print USAGE; status := 1 |}
  /\ status {| stdout := print SENTINEL; stderr := ""; status := 0 |} = 0
  /\ stderr {| stdout := print SENTINEL; stderr := ""; status := 0 |} = "".
Proof.
  destruct (main_exit_status ["match-rules.py"] (fun _ => None)
              [("rules/go.md", go_rule)]) as [_ [_ [Husage _]]].
  destruct (main_exit_status ["match-rules.py"; "changed.txt"]
              (fun _ => Some (Str.join nl ["README.md"; ""]))
              [("rules/go.md", go_rule)]) as [_ [_ [_ Hexit]]].
  split; [apply Husage; simpl; lia|].
  apply Hexit; [simpl; lia | reflexivity].
Defined.

(** X16.  When the input file can be read, [main] ends with the
    sentinel line as its whole output and status 0 exactly when there is
    no changed file or no rule matches. *)
Theorem main_sentinel :
  forall (argv : list string) (open_text : string -> option string)
         (rules_dir : directory) (path text : string),
    nth_error argv 1 = Some path ->
    open_text path = Some text ->
    (main argv open_text rules_dir = no_match
     <-> read_changed_files text = []
         \/ match_rules (read_changed_files text) rules_dir = Ok []).
Proof.
  intros argv open_text rules_dir path text Harg Hopen.
  destruct argv as [|prog [|path' rest]]; try discriminate Harg.
  cbn [nth_error] in Harg. injection Harg as ->.
  unfold main. cbn [List.length Nat.ltb Nat.leb nth_error]. rewrite Hopen.
  destruct (read_changed_files text) as [|f files]; [tauto|].
  rewrite match_rules_ok.
  destruct (map entry _) as [|m matched]; [tauto|].
  split; [|intros [H|H]; discriminate H].
  unfold no_match, print_summary, print. intros H.
  injection H as H. cbn [append] in H. discriminate H.
Qed.

Lemma main_sentinel_witness :
  main ["match-rules.py"; "changed.txt"]
       (fun _ => Some (Str.join nl ["README.md"; ""]))
       [("rules/go.md", go_rule)]
  = no_match
  <-> read_changed_files (Str.join nl ["README.md"; ""]) = []
      \/ match_rules (read_changed_files (Str.join nl ["README.md"; ""]))
                     [("rules/go.md", go_rule)]
         = Ok [].
Proof.
  apply (main_sentinel ["match-rules.py"; "changed.txt"]
           (fun _ => Some (Str.join nl ["README.md"; ""]))
           [("rules/go.md", go_rule)] "changed.txt"); reflexivity.
Defined.

Lemma file_lines_all (p : ascii -> bool) (text line : string) :
  all_of p text = true -> In line (file_lines text) -> all_of p line = true.
Proof.
  revert line. induction text as [|c text IH]; intros line Hall Hin;
    [destruct Hin|].
  cbn [all_of] in Hall. apply andb_prop in Hall as [Hc Hall].
  cbn [file_lines] in Hin.
  destruct (Ascii.eqb_spec c LF) as [->|_].
  - destruct Hin as [<-|Hin]; [|now apply IH].
    cbn [all_of]. now rewrite Hc.
  - destruct (file_lines text) as [|line0 others].
    + destruct Hin as [<-|[]]. cbn [all_of]. now rewrite Hc.
    + destruct Hin as [<-|Hin]; [|apply IH; auto; now right].
      cbn [all_of]. rewrite Hc. apply IH; auto. now left.
Qed.

Lemma main_without_changed_files
      (argv : list string) (open_text : string -> option string)
      (rules_dir : directory) (path text : string) :
  nth_error argv 1 = Some path ->
  open_text path = Some text ->
  read_changed_files text = [] ->
  main argv open_text rules_dir = no_match.
Proof.
  intros Harg Hopen Hread.
  destruct argv as [|prog [|path' rest]]; try discriminate Harg.
  cbn [nth_error] in Harg. injection Harg as ->.
  unfold main. cbn [List.length Nat.ltb Nat.leb nth_error].
  now rewrite Hopen, Hread.
Qed.

(** X17.  An input file that holds only whitespace (or nothing) names no
    changed file: [main] writes the sentinel line and exits with status
    0, whatever the rules directory holds. *)
Theorem main_blank_input :
  forall (argv : list string) (open_text : string -> option string)
         (rules_dir : directory) (path text : string),
    nth_error argv 1 = Some path ->
    open_text path = Some text ->
    all_of Str.isspace text = true ->
    read_changed_files text = []
    /\ main argv open_text rules_dir = no_match.
Proof.
  intros argv open_text rules_dir path text Harg Hopen Hblank.
  assert (Hread : read_changed_files text = []).
  { unfold read_changed_files. rewrite filter_none; [reflexivity|].
    intros line Hline. apply negb_false_iff, String.eqb_eq.
    unfold Str.strip, Str.strip_by.
    now rewrite (lstrip_by_all Str.isspace line
                   (file_lines_all _ _ _ Hblank Hline)). }
  split; [exact Hread|].
  now apply (main_without_changed_files argv open_text rules_dir path text).
Qed.

Lemma main_blank_input_witness :
  read_changed_files (Str.join nl [""; "   "; ""]) = []
  /\ main ["match-rules.py"; "changed.txt"]
          (fun _ => Some (Str.join nl [""; "   "; ""]))
          [("rules/go.md", go_rule)]
     = no_match.
Proof.
  apply (main_blank_input ["match-rules.py"; "changed.txt"]
           (fun _ => Some (Str.join nl [""; "   "; ""]))
           [("rules/go.md", go_rule)] "changed.txt"); reflexivity.
Defined.
